(** * required: presence markers for decoded request bodies

    A shallow embedding of the Go package [validate] (repository
    mailstepcz/required): the generic container [Required[T]], the reflective
    validator [Struct] and the convenience entry point [Parse], together with
    the parts of the Go standard library they call ([errors.Join], [errors.Is],
    [fmt.Errorf], and the fragment of package [reflect] that [Struct] uses).

    Universe of the embedding.  Go types are the basic kinds bool, int and
    string, [Required[T]], pointers, and declared struct types whose members
    are named fields of any of these types or embedded members [S] / [*S] for a
    declared struct type [S].  Declared struct types carry no methods of their
    own, types are finite trees (no type refers to itself), and identifiers are
    ASCII.  A struct that embeds [Required[T]] itself is outside this universe. *)

From Stdlib Require Import ZArith Ascii String List Bool Lia.
From stdpp Require Import base option strings list gmap pretty.

Local Open Scope Z_scope.
Local Open Scope nat_scope.

Set Warnings "-register-all".

(** ** Calls that may panic *)

Inductive outcome (A : Type) : Type :=
| Returns (a : A)
| Panics (msg : string).
Arguments Returns {A} a.
Arguments Panics {A} msg.

#[global] Instance outcome_ret : MRet outcome := fun A a => Returns a.
#[global] Instance outcome_bind : MBind outcome := fun A B f m =>
  match m with
  | Returns a => f a
  | Panics msg => Panics msg
  end.

Definition newline : string := String "010"%char EmptyString.

(** ** Package errors *)

Module errors.

(** Error values.  [sentinel] is an error allocated once in a package-level
    variable by [errors.New] (its identity is the variable); [errorString] is
    a fresh [*errors.errorString]; [wrapError] is [*fmt.wrapError];
    [joinError] is [*errors.joinError], whose slice is never empty;
    [foreign] is an error produced by another package (here encoding/json),
    known by its text.  Identity of error values is rendered by structural
    equality. *)
Inductive error : Type :=
| sentinel (text : string)
| errorString (s : string)
| wrapError (msg : string) (err : error)
| joinError (e0 : error) (errs : list error)
| foreign (msg : string).

(** The [Error() string] method of each implementation. *)
Fixpoint Error (e : error) : string :=
  match e with
  | sentinel s => s
  | errorString s => s
  | wrapError msg _ => msg
  | joinError e0 errs =>
      (fix rest (b : string) (l : list error) : string :=
         match l with
         | [] => b
         | err :: l' => rest (b +:+ newline +:+ Error err) l'
         end) (Error e0) errs
  | foreign msg => msg
  end.

(** [errors.Join]: nil arguments are discarded; nil when none is left. *)
Definition Join (errs : list (option error)) : option error :=
  match omap id errs with
  | [] => None
  | e0 :: rest => Some (joinError e0 rest)
  end.

(** [err == target] on error values. *)
Fixpoint error_beq (a b : error) : bool :=
  match a, b with
  | sentinel s, sentinel s' => bool_decide (s = s')
  | errorString s, errorString s' => bool_decide (s = s')
  | wrapError m e, wrapError m' e' => bool_decide (m = m') && error_beq e e'
  | joinError e l, joinError e' l' =>
      error_beq e e' &&
      (fix all2 (l l' : list error) : bool :=
         match l, l' with
         | [], [] => true
         | x :: r, x' :: r' => error_beq x x' && all2 r r'
         | _, _ => false
         end) l l'
  | foreign m, foreign m' => bool_decide (m = m')
  | _, _ => false
  end.

(** [errors.Is] for a non-nil [err] and [target]: compare, then follow
    [Unwrap() error] or every branch of [Unwrap() []error], depth first. *)
Fixpoint Is (err target : error) : bool :=
  error_beq err target ||
  match err with
  | wrapError _ inner => Is inner target
  | joinError e0 errs =>
      Is e0 target ||
      (fix any (l : list error) : bool :=
         match l with
         | [] => false
         | x :: r => Is x target || any r
         end) errs
  | _ => false
  end.

(** The individual errors aggregated in a result: what repeated
    [Unwrap() []error] reaches, left to right; nil aggregates nothing. *)
Fixpoint flatten (e : error) : list error :=
  match e with
  | joinError e0 errs =>
      flatten e0 ++
      (fix each (l : list error) : list error :=
         match l with
         | [] => []
         | x :: r => flatten x ++ each r
         end) errs
  | _ => [e]
  end.

Definition failures (r : option error) : list error :=
  match r with
  | None => []
  | Some e => flatten e
  end.

End errors.

Module fmt.

(** [fmt.Errorf("%w: %T", target, x)], where [desc] is what [%T] prints for
    [x]: a [*fmt.wrapError] around [target]. *)
Definition Errorf_w_T (target : errors.error) (desc : string) : errors.error :=
  errors.wrapError (errors.Error target +:+ ": " +:+ desc) target.

(** [fmt.Errorf("field '%s' in '%s' is required", name, typ)], where [typ]
    is the [String()] of the [reflect.Type] argument: no [%w], hence a fresh
    [*errors.errorString]. *)
Definition Errorf_required (name typ : string) : errors.error :=
  errors.errorString ("field '" +:+ name +:+ "' in '" +:+ typ +:+ "' is required").

End fmt.

(** ** The fragment of package reflect used by the validator *)

Module reflect.

(** Go types of the universe.  [TRequired T] is the instantiation
    [Required[T]], a struct of kind [Struct] with the two unexported fields
    [value T] and [valid bool] and the pointer-receiver methods of the
    package.  A declared struct type carries its bare name (the name an
    embedded member of that type gets) and its members in declaration order. *)
Inductive type : Type :=
| TBool
| TInt
| TString
| TRequired (T : type)
| TPointer (elem : type)
| TStruct (name : string) (members : list field)
with field : Type :=
| Named (fname : string) (ftype : type)
| Embedded (ptr : bool) (sname : string) (smembers : list field).

(** Go values, untyped as in memory; a struct is the sequence of its member
    values in declaration order, so a [Required[T]] holding [x] with flag [b]
    is [VStruct [x; VBool b]]. *)
Inductive value : Type :=
| VBool (b : bool)
| VInt (z : Z)
| VString (s : string)
| VNil
| VPtr (target : value)
| VStruct (members : list value).

Inductive Kind : Type := Invalid | Bool | Int | String_ | Pointer | Struct.

#[global] Instance Kind_eq_dec : EqDecision Kind.
Proof. solve_decision. Defined.

Definition kindOf (t : type) : Kind :=
  match t with
  | TBool => Bool
  | TInt => Int
  | TString => String_
  | TRequired _ => Struct
  | TPointer _ => Pointer
  | TStruct _ _ => Struct
  end.

Definition fieldName (f : field) : string :=
  match f with
  | Named n _ => n
  | Embedded _ n _ => n
  end.

Definition fieldType (f : field) : type :=
  match f with
  | Named _ t => t
  | Embedded false n ms => TStruct n ms
  | Embedded true n ms => TPointer (TStruct n ms)
  end.

Definition isEmbedded (f : field) : bool :=
  match f with
  | Named _ _ => false
  | Embedded _ _ _ => true
  end.

(** The members of a type of kind [Struct]. *)
Definition structFields (t : type) : option (list field) :=
  match t with
  | TStruct _ ms => Some ms
  | TRequired T => Some [Named "value" T; Named "valid" TBool]
  | _ => None
  end.

(** An identifier is exported when it starts with an upper-case letter. *)
Definition IsExported (name : string) : bool :=
  match name with
  | EmptyString => false
  | String c _ => (65 <=? nat_of_ascii c) && (nat_of_ascii c <=? 90)
  end.

(** Well-typed memory: [hasType t v] holds when [v] is a value of type [t]. *)
Fixpoint hasType (t : type) (v : value) {struct t} : bool :=
  match t, v with
  | TBool, VBool _ => true
  | TInt, VInt _ => true
  | TString, VString _ => true
  | TRequired T, VStruct [x; VBool _] => hasType T x
  | TPointer _, VNil => true
  | TPointer e, VPtr x => hasType e x
  | TStruct _ ms, VStruct vs =>
      (fix all2 (ms : list field) (vs : list value) : bool :=
         match ms, vs with
         | [], [] => true
         | m :: ms', x :: vs' => hasFieldType m x && all2 ms' vs'
         | _, _ => false
         end) ms vs
  | _, _ => false
  end
with hasFieldType (f : field) (v : value) {struct f} : bool :=
  match f, v with
  | Named _ t, _ => hasType t v
  | Embedded false _ ms, VStruct vs =>
      (fix all2 (ms : list field) (vs : list value) : bool :=
         match ms, vs with
         | [], [] => true
         | m :: ms', x :: vs' => hasFieldType m x && all2 ms' vs'
         | _, _ => false
         end) ms vs
  | Embedded true _ _, VNil => true
  | Embedded true _ ms, VPtr (VStruct vs) =>
      (fix all2 (ms : list field) (vs : list value) : bool :=
         match ms, vs with
         | [], [] => true
         | m :: ms', x :: vs' => hasFieldType m x && all2 ms' vs'
         | _, _ => false
         end) ms vs
  | _, _ => false
  end.

(** [reflect.StructField], without tag, offset and package path. *)
Record StructField : Type := mkStructField {
  Name : string;
  Type_ : type;
  Index : list nat;
  Anonymous : bool
}.

Definition setName (n : string) (f : StructField) : StructField :=
  {| Name := n; Type_ := Type_ f; Index := Index f; Anonymous := Anonymous f |}.

(** The state of [visibleFieldsWalker]: [byName] and [fields].  The walker's
    [index] stack is the argument of the walk; its [visiting] set only cuts
    types that contain themselves, which the universe has not. *)
Record walker : Type := mkWalker {
  byName : gmap string nat;
  fields : list StructField
}.

(** One iteration of the loop of [walk] before it descends: the member [f]
    reached at [index] is resolved against the field of the same name seen so
    far.  A member at the depth of the old one cancels it, a shallower one
    replaces it, a deeper one is dropped; a cancelled or replaced field has its
    name cleared.  [byName] only holds positions of [fields]. *)
Definition visit (f : field) (index : list nat) (w : walker) : walker :=
  let sf := {| Name := fieldName f; Type_ := fieldType f;
               Index := index; Anonymous := isEmbedded f |} in
  let '(w', add) :=
    match byName w !! fieldName f with
    | Some oldIndex =>
        match fields w !! oldIndex with
        | Some old =>
            if decide (length index = length (Index old)) then
              (mkWalker (byName w) (<[oldIndex := setName "" old]> (fields w)), false)
            else if decide (length index < length (Index old)) then
              (mkWalker (byName w) (<[oldIndex := setName "" old]> (fields w)), true)
            else (w, false)
        | None => (w, true)
        end
    | None => (w, true)
    end in
  if add then
    mkWalker (<[fieldName f := length (fields w')]> (byName w')) (fields w' ++ [sf])
  else w'.

(** [walk]: the member is visited, then, when it is an embedded struct or
    pointer to struct, its members are walked with the index extended. *)
Fixpoint walkField (f : field) (index : list nat) (w : walker) {struct f} : walker :=
  let w1 := visit f index w in
  match f with
  | Named _ _ => w1
  | Embedded _ _ ms =>
      (fix walkMembers (ms : list field) (i : nat) (w : walker) : walker :=
         match ms with
         | [] => w
         | m :: ms' => walkMembers ms' (S i) (walkField m (index ++ [i]) w)
         end) ms 0 w1
  end.

Fixpoint walk (ms : list field) (index : list nat) (i : nat) (w : walker) : walker :=
  match ms with
  | [] => w
  | m :: ms' => walk ms' index (S i) (walkField m (index ++ [i]) w)
  end.

(** [reflect.VisibleFields]: panics unless the type is a struct; the walk,
    then the fields whose name was cleared are removed. *)
Definition VisibleFields (t : type) : outcome (list StructField) :=
  match structFields t with
  | None => Panics "reflect.VisibleFields of non-struct type"
  | Some ms =>
      let w := walk ms [] 0 (mkWalker ∅ []) in
      Returns (filter (fun f => Name f ≠ "") (fields w))
  end.

(** The flag bits of a [reflect.Value] that matter here. *)
Record flag : Type := mkFlag {
  flagAddr : bool;
  flagStickyRO : bool;
  flagEmbedRO : bool
}.

Definition flagRO (fl : flag) : bool := flagStickyRO fl || flagEmbedRO fl.

(** [reflect.Value]: the zero Value, or a type, the data and the flags. *)
Inductive Value : Type :=
| ZeroValue
| MkValue (typ : type) (val : value) (fl : flag).

(** An interface value [interface{}]: nil, or a dynamic type and value. *)
Definition iface : Type := option (type * value).

Definition ValueOf (x : iface) : Value :=
  match x with
  | None => ZeroValue
  | Some (t, v) => MkValue t v (mkFlag false false false)
  end.

Definition Kind_ (v : Value) : Kind :=
  match v with
  | ZeroValue => Invalid
  | MkValue t _ _ => kindOf t
  end.

(** [Value.Elem] on a pointer: the zero Value for nil, else the pointee,
    addressable, with the read-only bits kept. *)
Definition Elem (v : Value) : outcome Value :=
  match v with
  | MkValue (TPointer e) VNil _ => Returns ZeroValue
  | MkValue (TPointer e) (VPtr x) fl =>
      Returns (MkValue e x (mkFlag true (flagStickyRO fl) (flagEmbedRO fl)))
  | MkValue (TPointer _) _ _ => Panics "ill-typed memory"
  | _ => Panics "reflect: call of reflect.Value.Elem on non-pointer Value"
  end.

Definition TypeOf (v : Value) : outcome type :=
  match v with
  | ZeroValue => Panics "reflect: call of reflect.Value.Type on zero Value"
  | MkValue t _ _ => Returns t
  end.

(** [Value.Field]: the i-th member; permission bits are inherited except
    [flagEmbedRO], and an unexported member forces a read-only bit. *)
Definition Field (v : Value) (i : nat) : outcome Value :=
  match v with
  | ZeroValue => Panics "reflect: call of reflect.Value.Field on zero Value"
  | MkValue t x fl =>
      match structFields t with
      | None => Panics "reflect: call of reflect.Value.Field on non-struct Value"
      | Some ms =>
          match ms !! i with
          | None => Panics "reflect: Field index out of range"
          | Some m =>
              match x with
              | VStruct vs =>
                  match vs !! i with
                  | Some y =>
                      let ro := negb (IsExported (fieldName m)) in
                      Returns (MkValue (fieldType m) y
                        (mkFlag (flagAddr fl)
                                (flagStickyRO fl || (ro && negb (isEmbedded m)))
                                (ro && isEmbedded m)))
                  | None => Panics "ill-typed memory"
                  end
              | _ => Panics "ill-typed memory"
              end
          end
      end
  end.

(** The loop of [Value.FieldByIndex]: from the second step on, a pointer to
    a struct is dereferenced first, and a nil one panics. *)
Fixpoint fieldByIndexFrom (first : bool) (v : Value) (index : list nat) : outcome Value :=
  match index with
  | [] => Returns v
  | x :: rest =>
      v1 ← (if first then Returns v
            else match v with
                 | MkValue (TPointer e) p _ =>
                     if decide (kindOf e = Struct) then
                       match p with
                       | VNil => Panics "reflect: indirection through nil pointer to embedded struct"
                       | _ => Elem v
                       end
                     else Returns v
                 | _ => Returns v
                 end);
      v2 ← Field v1 x;
      fieldByIndexFrom false v2 rest
  end.

Definition FieldByIndex (v : Value) (index : list nat) : outcome Value :=
  match index with
  | [i] => Field v i
  | _ =>
      if decide (Kind_ v = Struct) then fieldByIndexFrom true v index
      else Panics "reflect: call of reflect.Value.FieldByIndex on non-struct Value"
  end.

(** [Value.Addr]: a pointer to an addressable value, read-only bits kept. *)
Definition Addr (v : Value) : outcome Value :=
  match v with
  | ZeroValue => Panics "reflect.Value.Addr of unaddressable value"
  | MkValue t x fl =>
      if flagAddr fl then
        Returns (MkValue (TPointer t) (VPtr x)
                   (mkFlag false (flagStickyRO fl) (flagEmbedRO fl)))
      else Panics "reflect.Value.Addr of unaddressable value"
  end.

(** [Value.Interface]: refuses a value obtained through an unexported field. *)
Definition Interface (v : Value) : outcome iface :=
  match v with
  | ZeroValue => Panics "reflect: call of reflect.Value.Interface on zero Value"
  | MkValue t x fl =>
      if flagRO fl then
        Panics "reflect.Value.Interface: cannot return value obtained from unexported field or method"
      else Returns (Some (t, x))
  end.

End reflect.

(** ** The container Required[T] *)

(** [type Required[T any] struct { value T; valid bool }]. *)
Record Required (T : Type) : Type := mkRequired {
  value : T;
  valid : bool
}.
Arguments mkRequired {T} value valid.
Arguments value {T} r.
Arguments valid {T} r.

(** What [Ptr], [UnsafePtr] and [SettableValue] hand out: the address of the
    [value] member of the receiver, typed, untyped or as a settable
    [reflect.Value]. *)
Inductive handle : Type :=
| PtrToValue
| UnsafePtrToValue
| SettableElem.

Section Container.

Context {T : Type}.

(** [json.Unmarshal(b, p)] for [p : *T]: from the payload and the current
    content of [*p] to the content it leaves there and the error it returns. *)
Variable Unmarshal : list Byte.byte -> T -> T * option errors.error.

(** [reflect.TypeFor[T]()] and [fmt.Sprintf("%v", x)] for [x : T]. *)
Variable typeForT : reflect.type.
Variable Sprint : T -> string.

(** Every method has a pointer receiver: it maps the receiver's content to
    the content afterwards and the result. *)
Definition UnmarshalJSON (b : list Byte.byte) (r : Required T)
  : Required T * option errors.error :=
  let '(v, err) := Unmarshal b (value r) in
  match err with
  | Some e => (mkRequired v (valid r), Some e)
  | None => (mkRequired v true, None)
  end.

Definition Required_String (r : Required T) : Required T * string :=
  if valid r then (r, Sprint (value r)) else (r, "N/A").

Definition HasValue (r : Required T) : Required T * bool := (r, valid r).

Definition Value (r : Required T) : Required T * T := (r, value r).

Definition Ptr (r : Required T) : Required T * handle := (r, PtrToValue).

Definition UnsafePtr (r : Required T) : Required T * handle := (r, UnsafePtrToValue).

Definition RequiredType (r : Required T) : Required T * reflect.type := (r, typeForT).

Definition SetValid (v : bool) (r : Required T) : Required T * unit :=
  (mkRequired (value r) true, tt).

Definition SettableValue (r : Required T) : Required T * handle := (r, SettableElem).

(** A store through one of the handles writes the [value] member only. *)
Definition store (h : handle) (x : T) (r : Required T) : Required T :=
  mkRequired x (valid r).

(** The public operations on a container, and a client that performs a
    sequence of them. *)
Inductive operation : Type :=
| OpUnmarshalJSON (b : list Byte.byte)
| OpString
| OpHasValue
| OpValue
| OpPtr
| OpUnsafePtr
| OpRequiredType
| OpSetValid (v : bool)
| OpSettableValue
| OpStore (h : handle) (x : T).

Definition perform (op : operation) (r : Required T) : Required T :=
  match op with
  | OpUnmarshalJSON b => fst (UnmarshalJSON b r)
  | OpString => fst (Required_String r)
  | OpHasValue => fst (HasValue r)
  | OpValue => fst (Value r)
  | OpPtr => fst (Ptr r)
  | OpUnsafePtr => fst (UnsafePtr r)
  | OpRequiredType => fst (RequiredType r)
  | OpSetValid v => fst (SetValid v r)
  | OpSettableValue => fst (SettableValue r)
  | OpStore h x => store h x r
  end.

Definition performAll (ops : list operation) (r : Required T) : Required T :=
  fold_left (fun r op => perform op r) ops r.

End Container.

(** ** The validator *)

(** [var ErrBadType = errors.New("bad type")]. *)
Definition ErrBadType : errors.error := errors.sentinel "bad type".

(** A [Required[T]] in memory, and back. *)
Definition toValue (r : Required reflect.value) : reflect.value :=
  reflect.VStruct [value r; reflect.VBool (valid r)].

Definition ofValue (v : reflect.value) : option (Required reflect.value) :=
  match v with
  | reflect.VStruct [x; reflect.VBool b] => Some (mkRequired x b)
  | _ => None
  end.

(** The type assertion [i.(RequiredIface)].  In the universe the methods of
    [RequiredIface] are declared on [*Required[T]] only, so the assertion
    holds exactly for a dynamic type [*Required[T]]; it yields the pointer. *)
Definition assertRequiredIface (i : reflect.iface) : option reflect.value :=
  match i with
  | Some (reflect.TPointer (reflect.TRequired _), p) => Some p
  | _ => None
  end.

(** The call [x.HasValue()] through the interface: the method of the
    container on the pointee; a nil receiver is dereferenced and panics. *)
Definition callHasValue (p : reflect.value) : outcome bool :=
  match p with
  | reflect.VPtr target =>
      match ofValue target with
      | Some r => Returns (snd (HasValue r))
      | None => Panics "ill-typed memory"
      end
  | reflect.VNil => Panics "runtime error: invalid memory address or nil pointer dereference"
  | _ => Panics "ill-typed memory"
  end.

Section Validator.

(** [reflect.Type.String()], which [%T] and [%s] print. *)
Variable typeString : reflect.type -> string.

(** What [%T] prints for an interface value. *)
Definition describe (x : reflect.iface) : string :=
  match x with
  | None => "<nil>"
  | Some (t, _) => typeString t
  end.

(** The body of the loop of [Struct] over the visible fields, with [errs]
    threaded through. *)
Fixpoint checkFields (v : reflect.Value) (t : reflect.type)
  (fs : list reflect.StructField) (errs : option errors.error)
  : outcome (option errors.error) :=
  match fs with
  | [] => Returns errs
  | f :: rest =>
      fv0 ← reflect.FieldByIndex v (reflect.Index f);
      fv ← reflect.Addr fv0;
      i ← reflect.Interface fv;
      match assertRequiredIface i with
      | Some x =>
          has ← callHasValue x;
          if negb has then
            checkFields v t rest
              (errors.Join [errs; Some (fmt.Errorf_required (reflect.Name f) (typeString t))])
          else checkFields v t rest errs
      | None => checkFields v t rest errs
      end
  end.

Definition Struct (x : reflect.iface) : outcome (option errors.error) :=
  let v := reflect.ValueOf x in
  if negb (bool_decide (reflect.Kind_ v = reflect.Pointer)) then
    Returns (Some (fmt.Errorf_w_T ErrBadType (describe x)))
  else
    v ← reflect.Elem v;
    if negb (bool_decide (reflect.Kind_ v = reflect.Struct)) then
      Returns (Some (fmt.Errorf_w_T ErrBadType (describe x)))
    else
      t ← reflect.TypeOf v;
      fs ← reflect.VisibleFields t;
      checkFields v t fs None.

(** ** The entry point Parse *)

(** [json.NewDecoder(r).Decode(obj)]: from the stream and the destination to
    the destination as the decoder leaves it and the error it returns. *)
Variable Reader : Type.
Variable Decode : Reader -> reflect.iface -> reflect.iface * option errors.error.

(** The calls [Parse] makes, in order. *)
Inductive call : Type :=
| CallDecode (obj : reflect.iface)
| CallStruct (obj : reflect.iface).

(** [Parse], with the calls it made next to its result. *)
Definition Parse (r : Reader) (obj : reflect.iface)
  : list call * outcome (option errors.error) :=
  let '(obj', err) := Decode r obj in
  match err with
  | Some e => ([CallDecode obj], Returns (Some e))
  | None => ([CallDecode obj; CallStruct obj'], Struct obj')
  end.

End Validator.

(** ** An instance of the decoder: encoding/json at a two-field struct *)

Module json.

(** [type Pair struct { A int; B int }], a payload type for [Required[Pair]]. *)
Record Pair : Type := mkPair {
  A : Z;
  B : Z
}.

(** The decoder is rendered on a fragment of JSON: a flat object (or a lone
    scalar) whose values are integer literals or string literals of printable
    ASCII without escapes, with JSON white space between tokens.  Any other
    payload is answered with [syntaxError], which for input outside the
    fragment stands in for whatever encoding/json does there. *)
Inductive token : Type :=
| LBrace
| RBrace
| Colon
| Comma
| Str (s : string)
| Num (text : string).

Inductive lexState : Type :=
| Between
| InString (rev : list ascii)
| InNumber (rev : list ascii).

Definition isSpace (c : ascii) : bool :=
  let n := nat_of_ascii c in
  (n =? 32) || (n =? 9) || (n =? 10) || (n =? 13).

Definition isDigit (c : ascii) : bool :=
  let n := nat_of_ascii c in (48 <=? n) && (n <=? 57).

Definition text (rev : list ascii) : string :=
  string_of_list_ascii (List.rev rev).

(** A character met between two tokens. *)
Definition between (c : ascii) (out : list token) : option (lexState * list token) :=
  let n := nat_of_ascii c in
  if isSpace c then Some (Between, out)
  else if n =? 123 then Some (Between, LBrace :: out)
  else if n =? 125 then Some (Between, RBrace :: out)
  else if n =? 58 then Some (Between, Colon :: out)
  else if n =? 44 then Some (Between, Comma :: out)
  else if n =? 34 then Some (InString [], out)
  else if (n =? 45) || isDigit c then Some (InNumber [c], out)
  else None.

Fixpoint lex (st : lexState) (s : list ascii) (out : list token) : option (list token) :=
  match s with
  | [] =>
      match st with
      | Between => Some (List.rev out)
      | InString _ => None
      | InNumber r => Some (List.rev (Num (text r) :: out))
      end
  | c :: s' =>
      match st with
      | Between =>
          match between c out with
          | Some (st', out') => lex st' s' out'
          | None => None
          end
      | InString r =>
          let n := nat_of_ascii c in
          if n =? 34 then lex Between s' (Str (text r) :: out)
          else if (n =? 92) || (n <? 32) || (127 <? n) then None
          else lex (InString (c :: r)) s' out
      | InNumber r =>
          if isDigit c then lex (InNumber (c :: r)) s' out
          else
            match between c (Num (text r) :: out) with
            | Some (st', out') => lex st' s' out'
            | None => None
            end
      end
  end.

(** An integer literal of JSON: an optional minus, then 0 or a digit string
    that does not start with 0; its value. *)
Fixpoint digitsValue (acc : Z) (s : list ascii) : Z :=
  match s with
  | [] => acc
  | c :: s' => digitsValue (10 * acc + Z.of_nat (nat_of_ascii c - 48))%Z s'
  end.

Definition literalValue (t : string) : option Z :=
  let unsigned (s : list ascii) : option Z :=
    match s with
    | [] => None
    | c :: s' =>
        if (nat_of_ascii c =? 48) && negb (bool_decide (s' = [])) then None
        else Some (digitsValue 0%Z s)
    end in
  match list_ascii_of_string t with
  | c :: s' =>
      if nat_of_ascii c =? 45 then Z.opp <$> unsigned s' else unsigned (c :: s')
  | [] => None
  end.

Inductive scalar : Type :=
| SNum (text : string) (z : Z)
| SStr (s : string).

Definition scalarOf (t : token) : option scalar :=
  match t with
  | Num tx => SNum tx <$> literalValue tx
  | Str s => Some (SStr s)
  | _ => None
  end.

(** The members of an object after its opening brace or after a comma. *)
Fixpoint members (ts : list token) : option (list (string * scalar)) :=
  match ts with
  | Str k :: Colon :: v :: tail =>
      match scalarOf v, tail with
      | Some x, [RBrace] => Some [(k, x)]
      | Some x, Comma :: more => cons (k, x) <$> members more
      | _, _ => None
      end
  | _ => None
  end.

Inductive document : Type :=
| Scalar (x : scalar)
| Object (ms : list (string * scalar)).

Definition parse (b : list Byte.byte) : option document :=
  match lex Between (list_ascii_of_string (string_of_list_byte b)) [] with
  | Some [LBrace; RBrace] => Some (Object [])
  | Some (LBrace :: ts) => Object <$> members ts
  | Some [t] => Scalar <$> scalarOf t
  | _ => None
  end.

Definition syntaxError : errors.error := errors.foreign "json: syntax error".

(** [*json.UnmarshalTypeError] for a value that does not fit the member. *)
Definition typeError (what member : string) : errors.error :=
  errors.foreign ("json: cannot unmarshal " +:+ what +:+
                  " into Go struct field Pair." +:+ member +:+ " of type int").

Definition topTypeError (what : string) : errors.error :=
  errors.foreign ("json: cannot unmarshal " +:+ what +:+ " into Go value of type json.Pair").

Definition inInt64 (z : Z) : bool :=
  ((- 2 ^ 63 <=? z) && (z <? 2 ^ 63))%Z.

(** The decoder's saved error: only the first one is kept. *)
Definition saveError (saved : option errors.error) (e : errors.error) : option errors.error :=
  match saved with
  | Some _ => saved
  | None => Some e
  end.

(** One member of the object stored into the struct: the key selects a field
    by its name, exactly or up to case; an unknown key is skipped; a value
    that does not fit is recorded and decoding goes on. *)
Definition storeMember (st : Pair * option errors.error) (m : string * scalar)
  : Pair * option errors.error :=
  let '(p, saved) := st in
  let '(k, x) := m in
  let isA := bool_decide (k = "A") || bool_decide (k = "a") in
  let isB := bool_decide (k = "B") || bool_decide (k = "b") in
  if isA || isB then
    match x with
    | SNum tx z =>
        if inInt64 z then
          (if isA then mkPair z (B p) else mkPair (A p) z, saved)
        else (p, saveError saved (typeError ("number " +:+ tx) (if isA then "A" else "B")))
    | SStr _ => (p, saveError saved (typeError "string" (if isA then "A" else "B")))
    end
  else (p, saved).

(** [json.Unmarshal(b, p)] for [p : *Pair]: the payload is checked as a
    whole first, then decoded member by member into the existing struct. *)
Definition Unmarshal (b : list Byte.byte) (p : Pair) : Pair * option errors.error :=
  match parse b with
  | None => (p, Some syntaxError)
  | Some (Scalar (SNum _ _)) => (p, Some (topTypeError "number"))
  | Some (Scalar (SStr _)) => (p, Some (topTypeError "string"))
  | Some (Object ms) => fold_left storeMember ms (p, None)
  end.

End json.

(** ** Vocabulary of the statements *)

Section Vocabulary.

Import reflect.

(** The member declared at an index path: every step but the last goes
    through an embedded member. *)
Fixpoint fieldAt (ms : list field) (index : list nat) : option field :=
  match index with
  | [] => None
  | i :: rest =>
      match rest with
      | [] => ms !! i
      | _ :: _ =>
          match ms !! i with
          | Some (Embedded _ _ ms') => fieldAt ms' rest
          | _ => None
          end
      end
  end.

(** The value stored at an index path of a struct value, following embedded
    pointers; none when a pointer on the way is nil. *)
Fixpoint valueAt (v : value) (index : list nat) : option value :=
  match index with
  | [] => Some v
  | i :: rest =>
      match v with
      | VStruct vs | VPtr (VStruct vs) =>
          match vs !! i with
          | Some y => valueAt y rest
          | None => None
          end
      | _ => None
      end
  end.

(** The visible fields of a struct type, as [reflect.VisibleFields] lists them. *)
Definition visible (t : type) : list StructField :=
  match VisibleFields t with
  | Returns fs => fs
  | Panics _ => []
  end.

(** A marker field: one whose address satisfies [RequiredIface]. *)
Definition isMarker (f : StructField) : bool :=
  match Type_ f with
  | TRequired _ => true
  | _ => false
  end.

(** The populated flag of the container stored at a field. *)
Definition populatedAt (v : value) (f : StructField) : bool :=
  match valueAt v (Index f) ≫= ofValue with
  | Some r => valid r
  | None => false
  end.

Definition markers (t : type) : list StructField :=
  filter (fun f => isMarker f = true) (visible t).

Definition populated (t : type) (v : value) : list StructField :=
  filter (fun f => populatedAt v f = true) (markers t).

Definition missing (t : type) (v : value) : list StructField :=
  filter (fun f => populatedAt v f = false) (markers t).

(** A field that [Struct] can inspect: exported, and stored behind no nil
    embedded pointer. *)
Definition inspectable (v : value) (f : StructField) : Prop :=
  IsExported (Name f) = true ∧ is_Some (valueAt v (Index f)).

(** A listed field that stands for a declared member: its index leads to
    the member, whose type and name it carries. *)
Definition declaredAs (ms : list field) (f : StructField) : Prop :=
  exists m, fieldAt ms (Index f) = Some m
            /\ Type_ f = fieldType m /\ Name f = fieldName m.

(** The invariants of the walker: every entry stands for the member at its
    index, with its name or with the name cleared; and an entry whose name is
    not cleared is the one [byName] holds for that name. *)
Definition entriesDeclared (root : list field) (w : walker) : Prop :=
  Forall (fun e => exists m, fieldAt root (Index e) = Some m
                             /\ Type_ e = fieldType m
                             /\ (Name e = "" \/ Name e = fieldName m))
         (fields w).

Definition namesIndexed (w : walker) : Prop :=
  forall i e, fields w !! i = Some e -> Name e <> "" ->
              byName w !! Name e = Some i.

(** The error [Struct] records for a field. *)
Definition failureOf (typeString : type -> string) (t : type) (f : StructField)
  : errors.error :=
  fmt.Errorf_required (Name f) (typeString t).

#[global] Instance inspectable_dec (v : value) (f : StructField) :
  Decision (inspectable v f).
Proof. unfold inspectable. apply _. Defined.

(** A pointer to a struct value, as an argument of [Struct]. *)
Definition pointerTo (t : type) (v : value) : iface := Some (TPointer t, VPtr v).

(** An argument of [Struct] that is a non-nil pointer to a struct. *)
Definition pointsToStruct (x : iface) : bool :=
  match x with
  | Some (TPointer e, VPtr _) => bool_decide (kindOf e = Struct)
  | _ => false
  end.

Definition wellTyped (x : iface) : Prop :=
  match x with
  | None => True
  | Some (t, v) => hasType t v = true
  end.

(** The aggregate of a sequence of failures, joined one after the other as
    the loop of [Struct] does. *)
Definition report (es : list errors.error) : option errors.error :=
  fold_left (fun acc e => errors.Join [acc; Some e]) es None.

(** What it means for a result to aggregate a sequence of failures: nil for
    none; otherwise an error that unwraps to exactly them, renders as their
    messages joined by newlines, and matches each of them under [errors.Is]. *)
Definition aggregates (r : option errors.error) (es : list errors.error) : Prop :=
  match r with
  | None => es = []
  | Some e =>
      es <> []
      /\ errors.flatten e = es
      /\ errors.Error e = String.concat newline (errors.Error <$> es)
      /\ Forall (fun x => errors.Is e x = true) es
  end.

Definition requiredMessage (name typ : string) : string :=
  "field '" +:+ name +:+ "' in '" +:+ typ +:+ "' is required".

(** The flags [Value.Field] gives to a member reached from an addressable
    struct that is not read-only. *)
Definition flagOfField (m : field) : flag :=
  mkFlag true
    (negb (IsExported (fieldName m)) && negb (isEmbedded m))
    (negb (IsExported (fieldName m)) && isEmbedded m).

Definition panicReadOnly : string :=
  "reflect.Value.Interface: cannot return value obtained from unexported field or method".

Definition panicNilEmbedded : string :=
  "reflect: indirection through nil pointer to embedded struct".

(** For an argument that is a non-nil pointer, every visible field of the
    pointee is inspectable. *)
Definition inspectableArg (x : iface) : Prop :=
  match x with
  | Some (TPointer t, VPtr v) => Forall (inspectable v) (visible t)
  | _ => True
  end.

(** The populated flag a stored value carries when it is a [Required[T]]. *)
Definition flagOf (y : value) : option bool := valid <$> ofValue y.

End Vocabulary.

Section ContainerVocabulary.

Context {T : Type}.
Variable Unmarshal : list Byte.byte -> T -> T * option errors.error.
Variable typeForT : reflect.type.
Variable Sprint : T -> string.

(** An operation that marks the container it is performed on: [SetValid]
    with either argument, or [UnmarshalJSON] with a payload the decoder
    accepts for the value stored at that moment. *)
Definition marks (op : @operation T) (r : Required T) : bool :=
  match op with
  | OpSetValid _ => true
  | OpUnmarshalJSON b =>
      match snd (Unmarshal b (value r)) with
      | None => true
      | Some _ => false
      end
  | _ => false
  end.

(** Whether some operation of a sequence marks the container, each one
    taken on the container as the operations before it left it. *)
Fixpoint everMarked (ops : list (@operation T)) (r : Required T) : bool :=
  match ops with
  | [] => false
  | op :: rest =>
      marks op r || everMarked rest (perform Unmarshal typeForT Sprint op r)
  end.

End ContainerVocabulary.

(** ** Sample structures and payloads *)

Module samples.

Import reflect.

(** [reflect.Type.String()] on the sample types, all declared in package
    [validate] and instantiated at basic types. *)
Fixpoint typeString (t : type) : string :=
  match t with
  | TBool => "bool"
  | TInt => "int"
  | TString => "string"
  | TRequired T => "validate.Required[" +:+ typeString T +:+ "]"
  | TPointer e => "*" +:+ typeString e
  | TStruct n _ => "validate." +:+ n
  end.

(** A [Required[T]] in memory, never decoded into, and decoded into. *)
Definition absent (zero : value) : value := toValue (mkRequired zero false).
Definition present (x : value) : value := toValue (mkRequired x true).

(** [type Person struct { Name Required[string]; Age Required[int] }], the
    struct of the package's tests, after decoding a document with the name
    only and a document with both members. *)
Definition Person : type :=
  TStruct "Person" [Named "Name" (TRequired TString); Named "Age" (TRequired TInt)].

Definition nameOnly : value :=
  VStruct [present (VString "Saoirse"); absent (VInt 0)].

Definition nameAndAge : value :=
  VStruct [present (VString "Saoirse"); present (VInt 25)].

(** [type Ticket struct { ID Required[int]; note string }]. *)
Definition Ticket : type :=
  TStruct "Ticket" [Named "ID" (TRequired TInt); Named "note" TString].

Definition emptyTicket : value := VStruct [absent (VInt 0); VString ""].

(** [type Invoice struct { Number Required[int]; memo string }]. *)
Definition Invoice : type :=
  TStruct "Invoice" [Named "Number" (TRequired TInt); Named "memo" TString].

Definition emptyInvoice : value := VStruct [absent (VInt 0); VString ""].

(** [type Meta struct { Trace string }] and
    [type Envelope struct { *Meta; Body Required[string] }], with the embedded
    pointer left nil. *)
Definition Envelope : type :=
  TStruct "Envelope"
    [Embedded true "Meta" [Named "Trace" TString]; Named "Body" (TRequired TString)].

Definition bareEnvelope : value := VStruct [VNil; absent (VString "")].

(** [type base struct { ID Required[int] }] and [type Record struct { base }]. *)
Definition Record_ : type :=
  TStruct "Record" [Embedded false "base" [Named "ID" (TRequired TInt)]].

Definition emptyRecord : value := VStruct [VStruct [absent (VInt 0)]].

(** [type Inner struct { ID Required[int] }] and
    [type Holder struct { *Inner }], with the embedded pointer left nil. *)
Definition Holder : type :=
  TStruct "Holder" [Embedded true "Inner" [Named "ID" (TRequired TInt)]].

Definition emptyHolder : value := VStruct [VNil].

(** [type Address struct { City, Zip Required[string] }] and
    [type Customer struct { Address; Name Required[string] }], with the city
    and the name decoded and the zip code absent. *)
Definition Customer : type :=
  TStruct "Customer"
    [Embedded false "Address"
       [Named "City" (TRequired TString); Named "Zip" (TRequired TString)];
     Named "Name" (TRequired TString)].

Definition customer : value :=
  VStruct [VStruct [present (VString "Brno"); absent (VString "")];
           present (VString "Ada")].

(** The promoted field [Zip] of [Customer], as [VisibleFields] lists it. *)
Definition zipField : StructField :=
  mkStructField "Zip" (TRequired TString) [0; 1] false.

(** [type Draft struct { Title *Required[string]; Body Required[string] }],
    with the pointer left nil and the body decoded. *)
Definition Draft : type :=
  TStruct "Draft"
    [Named "Title" (TPointer (TRequired TString)); Named "Body" (TRequired TString)].

Definition untitled : value := VStruct [VNil; present (VString "text")].

Definition titleField : StructField :=
  mkStructField "Title" (TPointer (TRequired TString)) [0] false.

(** A decoder that stores nothing and reports success, as encoding/json
    does on the document [{}] for a struct destination. *)
Definition decodeNothing (r : unit) (obj : iface) : iface * option errors.error :=
  (obj, None).

(** Payloads. *)
Definition quote : string := String "034"%char EmptyString.

Definition key (k : string) : string := quote +:+ k +:+ quote.

Definition payload (s : string) : list Byte.byte := list_byte_of_string s.

(** The document [{"A":1,"B":"x"}]: the second member does not fit an int. *)
Definition misfit : list Byte.byte :=
  payload ("{" +:+ key "A" +:+ ":1," +:+ key "B" +:+ ":" +:+ key "x" +:+ "}").

(** The document [{"A":0,"B":0}]: the zero value of [Pair], spelled out. *)
Definition zeros : list Byte.byte :=
  payload ("{" +:+ key "A" +:+ ":0," +:+ key "B" +:+ ":0}").

(** [reflect.TypeFor[Pair]()] and [%v] on a [Pair]. *)
Definition PairType : type := TStruct "Pair" [Named "A" TInt; Named "B" TInt].

Definition SprintPair (p : json.Pair) : string :=
  "{" +:+ pretty (json.A p) +:+ " " +:+ pretty (json.B p) +:+ "}".

(** [io.EOF], and [json.NewDecoder(r).Decode(obj)] on a stream that is
    already exhausted: nothing is stored and [io.EOF] is returned. *)
Definition EOF : errors.error := errors.sentinel "EOF".

Definition decodeExhausted (r : unit) (obj : iface) : iface * option errors.error :=
  (obj, Some EOF).

End samples.

(** * Properties *)

(** ** The container *)

Section ContainerFacts.

Context {T : Type}.
Variable Unmarshal : list Byte.byte -> T -> T * option errors.error.
Variable typeForT : reflect.type.
Variable Sprint : T -> string.

Lemma perform_keeps_valid (op : operation) (r : Required T) :
  valid r = true -> valid (perform Unmarshal typeForT Sprint op r) = true.
Proof.
  intros Hv. destruct op; simpl; try assumption; try reflexivity.
  - unfold UnmarshalJSON. destruct (Unmarshal b (value r)) as [v [e|]]; simpl; auto.
  - unfold Required_String. rewrite Hv. simpl. assumption.
Qed.

End ContainerFacts.

(** C5: on a payload the decoder accepts, [UnmarshalJSON] returns no error,
    sets the populated flag and stores the decoded value, whatever that value
    is (the zero value of [T] included): afterwards [HasValue] answers true and
    [Value] answers the decoded value. *)
Theorem UnmarshalJSON_accepts_payload {T : Type}
  (Unmarshal : list Byte.byte -> T -> T * option errors.error)
  (b : list Byte.byte) (r : Required T) (decoded : T)
  (Hdec : Unmarshal b (value r) = (decoded, None)) :
  UnmarshalJSON Unmarshal b r = (mkRequired decoded true, None)
  /\ snd (HasValue (fst (UnmarshalJSON Unmarshal b r))) = true
  /\ snd (Value (fst (UnmarshalJSON Unmarshal b r))) = decoded.
Proof.
  unfold UnmarshalJSON. rewrite Hdec. simpl. repeat split.
Qed.

(** C6, as amended: on a payload the decoder rejects, [UnmarshalJSON]
    returns the decoder's error as it is and leaves the populated flag as it
    was; the stored value is what the decoder left behind. *)
Theorem UnmarshalJSON_rejects_payload {T : Type}
  (Unmarshal : list Byte.byte -> T -> T * option errors.error)
  (b : list Byte.byte) (r : Required T) (left : T) (e : errors.error)
  (Hdec : Unmarshal b (value r) = (left, Some e)) :
  UnmarshalJSON Unmarshal b r = (mkRequired left (valid r), Some e)
  /\ snd (HasValue (fst (UnmarshalJSON Unmarshal b r))) = snd (HasValue r)
  /\ snd (Value (fst (UnmarshalJSON Unmarshal b r))) = left.
Proof.
  unfold UnmarshalJSON. rewrite Hdec. simpl. repeat split.
Qed.

(** C7: after [SetValid(b)], for either [b], [HasValue] answers true. *)
Theorem SetValid_marks_valid {T : Type} (b : bool) (r : Required T) :
  snd (HasValue (fst (SetValid b r))) = true.
Proof. reflexivity. Qed.

(** C9: once the populated flag is set, no sequence of public operations
    (stores through the handed-out addresses included) clears it. *)
Theorem valid_is_latched {T : Type}
  (Unmarshal : list Byte.byte -> T -> T * option errors.error)
  (typeForT : reflect.type) (Sprint : T -> string)
  (ops : list (@operation T)) (r : Required T)
  (Hv : snd (HasValue r) = true) :
  snd (HasValue (performAll Unmarshal typeForT Sprint ops r)) = true.
Proof.
  unfold performAll. revert r Hv.
  induction ops as [|op ops IH]; intros r Hv; simpl in *.
  - exact Hv.
  - apply IH. simpl. now apply perform_keeps_valid.
Qed.

(** ** Reflection: typed memory and index paths *)

Section ReflectFacts.

Import reflect.

Lemma all2_Forall2 (ms : list field) (vs : list value) :
  (fix all2 (ms : list field) (vs : list value) : bool :=
     match ms, vs with
     | [], [] => true
     | m :: ms', x :: vs' => hasFieldType m x && all2 ms' vs'
     | _, _ => false
     end) ms vs = true
  <-> Forall2 (fun m x => hasFieldType m x = true) ms vs.
Proof.
  revert vs. induction ms as [|m ms IH]; intros [|x vs]; split; intros H;
    try discriminate; try constructor; try solve [inversion H].
  - apply andb_true_iff in H. tauto.
  - apply andb_true_iff in H. apply IH. tauto.
  - inversion H; subst. apply andb_true_iff. split; [assumption | now apply IH].
Qed.

Lemma hasType_struct (n : string) (ms : list field) (v : value) :
  hasType (TStruct n ms) v = true ->
  exists vs, v = VStruct vs /\ Forall2 (fun m x => hasFieldType m x = true) ms vs.
Proof.
  destruct v; simpl; try discriminate.
  intros H. eexists; split; [reflexivity | now apply all2_Forall2].
Qed.

Lemma hasType_required (T : type) (v : value) :
  hasType (TRequired T) v = true ->
  exists x b, v = VStruct [x; VBool b] /\ hasType T x = true.
Proof.
  destruct v as [| | | | |vs]; simpl; try discriminate.
  destruct vs as [|x [|y [|? ?]]]; try discriminate;
    destruct y; try discriminate. intros H. eexists _, _. split; [reflexivity | exact H].
Qed.

Lemma hasType_members (t : type) (v : value) (ms : list field) :
  structFields t = Some ms -> hasType t v = true ->
  exists vs, v = VStruct vs /\ Forall2 (fun m x => hasFieldType m x = true) ms vs.
Proof.
  destruct t; simpl; try discriminate; intros [= <-] H.
  - apply hasType_required in H as (x & b & -> & Hx).
    eexists; split; [reflexivity|]. repeat constructor; assumption.
  - now apply (hasType_struct name).
Qed.

Lemma hasFieldType_embedded (p : bool) (n : string) (ms : list field) (y : value) :
  hasFieldType (Embedded p n ms) y = true ->
  (p = true /\ y = VNil) \/
  exists vs, Forall2 (fun m x => hasFieldType m x = true) ms vs
             /\ y = (if p then VPtr (VStruct vs) else VStruct vs).
Proof.
  destruct p; simpl.
  - destruct y as [| | | |tg|]; try discriminate; [now left|].
    destruct tg as [| | | | |vs]; try discriminate. intros H. right.
    exists vs; split; [apply all2_Forall2; exact H | reflexivity].
  - destruct y as [| | | | |vs]; try discriminate. intros H. right.
    exists vs; split; [apply all2_Forall2; exact H | reflexivity].
Qed.

Lemma hasFieldType_fieldType (m : field) (y : value) :
  hasFieldType m y = true -> hasType (fieldType m) y = true.
Proof.
  destruct m as [n t|p n ms]; [trivial|].
  intros H. destruct (hasFieldType_embedded _ _ _ _ H) as [[-> ->]|(vs & Hvs & ->)].
  - reflexivity.
  - destruct p; simpl; apply all2_Forall2; exact Hvs.
Qed.

Lemma outcome_bind_ret {A : Type} (m : outcome A) : (m ≫= Returns) = m.
Proof. now destruct m. Qed.

Lemma Field_member (t : type) (ms : list field) (vs : list value) (fl : flag)
  (i : nat) (m : field) (y : value) :
  structFields t = Some ms -> ms !! i = Some m -> vs !! i = Some y ->
  flagAddr fl = true -> flagStickyRO fl = false ->
  Field (MkValue t (VStruct vs) fl) i = Returns (MkValue (fieldType m) y (flagOfField m)).
Proof.
  intros Ht Hm Hy Ha Hs. unfold Field. rewrite Ht, Hm, Hy, Ha, Hs. reflexivity.
Qed.

Lemma valueAt_struct (vs : list value) (i : nat) (rest : list nat) :
  valueAt (VStruct vs) (i :: rest)
  = match vs !! i with Some y => valueAt y rest | None => None end.
Proof. reflexivity. Qed.

Lemma fieldByIndexFrom_first (v : Value) (x : nat) (rest : list nat) :
  fieldByIndexFrom true v (x :: rest)
  = Field v x ≫= fun v2 => fieldByIndexFrom false v2 rest.
Proof. reflexivity. Qed.

(** [FieldByIndex] along a declared path: the stored member with the flags
    of its declaration, or the panic of a nil embedded pointer. *)
Lemma fieldByIndexFrom_declared (index : list nat) :
  forall (t : type) (ms : list field) (vs : list value) (fl : flag) (m : field),
    structFields t = Some ms ->
    Forall2 (fun m x => hasFieldType m x = true) ms vs ->
    flagAddr fl = true -> flagStickyRO fl = false ->
    fieldAt ms index = Some m ->
    match valueAt (VStruct vs) index with
    | Some y =>
        fieldByIndexFrom true (MkValue t (VStruct vs) fl) index
          = Returns (MkValue (fieldType m) y (flagOfField m))
        /\ hasFieldType m y = true
    | None =>
        fieldByIndexFrom true (MkValue t (VStruct vs) fl) index = Panics panicNilEmbedded
    end.
Proof.
  induction index as [|i rest IH]; intros t ms vs fl m Ht Hvs Ha Hs Hat;
    [discriminate|].
  simpl in Hat. rewrite valueAt_struct, fieldByIndexFrom_first.
  destruct rest as [|j rest].
  - (* last step *)
    destruct (Forall2_lookup_l _ _ _ _ _ Hvs Hat) as (y & Hy & Hty).
    rewrite Hy, (Field_member t ms vs fl i m y) by assumption.
    split; [reflexivity | exact Hty].
  - destruct (ms !! i) as [mi|] eqn:Hmi; [|discriminate].
    destruct mi as [|p n ms']; [discriminate|].
    destruct (Forall2_lookup_l _ _ _ _ _ Hvs Hmi) as (y & Hy & Hty).
    rewrite Hy, (Field_member t ms vs fl i _ y Ht Hmi Hy Ha Hs).
    destruct (hasFieldType_embedded _ _ _ _ Hty) as [[-> ->]|(vs' & Hvs' & ->)].
    + reflexivity.
    + specialize (IH (TStruct n ms') ms' vs'
                     (mkFlag true false (negb (IsExported n) && true)) m
                     eq_refl Hvs' eq_refl eq_refl Hat).
      destruct p.
      * change (valueAt (VPtr (VStruct vs')) (j :: rest))
          with (valueAt (VStruct vs') (j :: rest)).
        destruct (valueAt (VStruct vs') (j :: rest)) as [z|];
          [destruct IH as [IH Hz]; split; [|exact Hz]|];
          rewrite <- IH; simpl; rewrite andb_false_r; reflexivity.
      * destruct (valueAt (VStruct vs') (j :: rest)) as [z|];
          [destruct IH as [IH Hz]; split; [|exact Hz]|];
          rewrite <- IH; simpl; rewrite andb_false_r; reflexivity.
Qed.

Lemma FieldByIndex_declared (t : type) (v : value) (ms : list field)
  (index : list nat) (m : field) :
  structFields t = Some ms -> hasType t v = true ->
  fieldAt ms index = Some m ->
  match valueAt v index with
  | Some y =>
      FieldByIndex (MkValue t v (mkFlag true false false)) index
        = Returns (MkValue (fieldType m) y (flagOfField m))
      /\ hasFieldType m y = true
  | None =>
      FieldByIndex (MkValue t v (mkFlag true false false)) index
        = Panics panicNilEmbedded
  end.
Proof.
  intros Ht Hty Hat.
  destruct (hasType_members t v ms Ht Hty) as (vs & -> & Hvs).
  pose proof (fieldByIndexFrom_declared index t ms vs (mkFlag true false false) m
                Ht Hvs eq_refl eq_refl Hat) as H.
  assert (Hk : Kind_ (MkValue t (VStruct vs) (mkFlag true false false)) = Struct).
  { destruct t; simpl in *; congruence. }
  assert (HF : FieldByIndex (MkValue t (VStruct vs) (mkFlag true false false)) index
               = fieldByIndexFrom true (MkValue t (VStruct vs) (mkFlag true false false)) index).
  { unfold FieldByIndex. destruct index as [|i [|j rest]].
    - rewrite Hk. reflexivity.
    - rewrite fieldByIndexFrom_first. simpl fieldByIndexFrom.
      symmetry. apply outcome_bind_ret.
    - rewrite Hk. reflexivity. }
  rewrite HF. exact H.
Qed.

End ReflectFacts.

(** ** The loop of the validator *)

Section LoopFacts.

Import reflect.

Variable typeString : type -> string.

Lemma flagRO_flagOfField (m : field) :
  flagRO (flagOfField m) = negb (IsExported (fieldName m)).
Proof.
  unfold flagRO, flagOfField. simpl.
  destruct (IsExported (fieldName m)), (isEmbedded m); reflexivity.
Qed.

(** One iteration on a listed field: a nil embedded pointer on the way or an
    unexported name panics; otherwise a marker that is not populated adds
    its error, and any other field adds nothing. *)
Lemma checkFields_step (t : type) (v : value) (ms : list field)
  (f : StructField) (rest : list StructField) (errs : option errors.error) :
  structFields t = Some ms -> hasType t v = true -> declaredAs ms f ->
  checkFields typeString (MkValue t v (mkFlag true false false)) t (f :: rest) errs
  = match valueAt v (Index f) with
    | None => Panics panicNilEmbedded
    | Some _ =>
        if IsExported (Name f) then
          checkFields typeString (MkValue t v (mkFlag true false false)) t rest
            (if isMarker f && negb (populatedAt v f)
             then errors.Join [errs; Some (failureOf typeString t f)]
             else errs)
        else Panics panicReadOnly
    end.
Proof.
  intros Ht Hty (m & Hat & HT & HN).
  pose proof (FieldByIndex_declared t v ms (Index f) m Ht Hty Hat) as H.
  unfold populatedAt, isMarker, failureOf.
  change (checkFields typeString ?V t (f :: rest) errs)
    with (FieldByIndex V (Index f) ≫= fun fv0 =>
          Addr fv0 ≫= fun fv =>
          Interface fv ≫= fun i =>
          match assertRequiredIface i with
          | Some x =>
              callHasValue x ≫= fun has =>
              if negb has then
                checkFields typeString V t rest
                  (errors.Join [errs; Some (fmt.Errorf_required (Name f) (typeString t))])
              else checkFields typeString V t rest errs
          | None => checkFields typeString V t rest errs
          end).
  destruct (valueAt v (Index f)) as [y|]; [|rewrite H; reflexivity].
  destruct H as [-> Hy]. rewrite HN, HT.
  cbn [mbind outcome_bind Addr flagOfField flagAddr flagStickyRO flagEmbedRO].
  cbn [Interface].
  pose proof (flagRO_flagOfField m) as Hro. unfold flagOfField in Hro.
  cbn [flagStickyRO flagEmbedRO flagAddr] in Hro.
  unfold flagRO in *. cbn [flagStickyRO flagEmbedRO] in *. rewrite Hro.
  destruct (IsExported (fieldName m)); [|reflexivity].
  cbn [negb mbind outcome_bind assertRequiredIface].
  apply hasFieldType_fieldType in Hy.
  destruct (fieldType m) eqn:Hft; try reflexivity.
  apply hasType_required in Hy as (x & b & -> & _).
  cbn. destruct b; reflexivity.
Qed.

(** The failures the loop adds for a list of fields, in order. *)
Lemma checkFields_returns (t : type) (v : value) (ms : list field)
  (fs : list StructField) :
  structFields t = Some ms -> hasType t v = true ->
  Forall (declaredAs ms) fs -> Forall (inspectable v) fs ->
  forall errs,
    checkFields typeString (MkValue t v (mkFlag true false false)) t fs errs
    = Returns
        (fold_left (fun acc e => errors.Join [acc; Some e])
           (failureOf typeString t <$>
              filter (fun f => populatedAt v f = false)
                (filter (fun f => isMarker f = true) fs))
           errs).
Proof.
  intros Ht Hty Hdecl Hins.
  induction fs as [|f fs IH]; intros errs; [reflexivity|].
  inversion Hdecl as [|? ? Hf Hdecl']; subst.
  inversion Hins as [|? ? [Hexp [y Hy]] Hins']; subst.
  rewrite (checkFields_step t v ms f fs errs Ht Hty Hf), Hy, Hexp.
  rewrite (IH Hdecl' Hins').
  rewrite (filter_cons (fun f => isMarker f = true)).
  destruct (isMarker f) eqn:Hm.
  - rewrite decide_True by reflexivity.
    rewrite (filter_cons (fun f => populatedAt v f = false)).
    destruct (populatedAt v f) eqn:Hp.
    + rewrite decide_False by discriminate. reflexivity.
    + rewrite decide_True by reflexivity. reflexivity.
  - rewrite decide_False by discriminate. reflexivity.
Qed.

(** A field that cannot be inspected makes the loop panic, with one of the
    two panics of package reflect. *)
Lemma checkFields_panics (t : type) (v : value) (ms : list field)
  (fs : list StructField) :
  structFields t = Some ms -> hasType t v = true ->
  Forall (declaredAs ms) fs -> Exists (fun f => ~ inspectable v f) fs ->
  forall errs,
    exists msg,
      checkFields typeString (MkValue t v (mkFlag true false false)) t fs errs
      = Panics msg
      /\ (msg = panicReadOnly \/ msg = panicNilEmbedded).
Proof.
  intros Ht Hty Hdecl Hex.
  induction fs as [|f fs IH]; intros errs; [inversion Hex|].
  inversion Hdecl as [|? ? Hf Hdecl']; subst.
  rewrite (checkFields_step t v ms f fs errs Ht Hty Hf).
  destruct (valueAt v (Index f)) as [y|] eqn:Hy; [|eauto].
  destruct (IsExported (Name f)) eqn:Hexp; [|eauto].
  apply IH; [exact Hdecl'|].
  inversion Hex as [? ? Hbad|? ? Hlater]; subst; [|exact Hlater].
  exfalso. apply Hbad. split; [exact Hexp | rewrite Hy; eauto].
Qed.

Lemma checkFields_returns_inv (t : type) (v : value) (ms : list field)
  (fs : list StructField) (errs r : option errors.error) :
  structFields t = Some ms -> hasType t v = true ->
  Forall (declaredAs ms) fs ->
  checkFields typeString (MkValue t v (mkFlag true false false)) t fs errs = Returns r ->
  Forall (inspectable v) fs.
Proof.
  intros Ht Hty Hdecl Hret.
  destruct (decide (Forall (inspectable v) fs)) as [H|H]; [exact H|].
  apply not_Forall_Exists in H; [|apply _].
  destruct (checkFields_panics t v ms fs Ht Hty Hdecl H errs) as (msg & Hp & _).
  congruence.
Qed.

End LoopFacts.

(** ** The walk of VisibleFields *)

Section WalkFacts.

Import reflect.

(** Induction on a member and, below an embedded one, on its members. *)
Lemma field_nested_ind (P : field -> Prop)
  (HNamed : forall n t, P (Named n t))
  (HEmbedded : forall p n ms, Forall P ms -> P (Embedded p n ms)) :
  forall f, P f.
Proof.
  fix IH 1. intros [n t|p n ms].
  - apply HNamed.
  - apply HEmbedded. induction ms as [|m ms IHms]; constructor.
    + apply IH.
    + exact IHms.
Qed.

Lemma walkField_embedded (p : bool) (n : string) (ms : list field)
  (index : list nat) (w : walker) :
  walkField (Embedded p n ms) index w
  = walk ms index 0 (visit (Embedded p n ms) index w).
Proof.
  simpl. generalize (visit (Embedded p n ms) index w). generalize 0.
  induction ms as [|m ms IH]; intros i w'; [reflexivity|].
  simpl. apply IH.
Qed.

Lemma fieldAt_snoc (index : list nat) :
  forall (root : list field) (p : bool) (n : string) (ms : list field) (j : nat),
    fieldAt root index = Some (Embedded p n ms) ->
    fieldAt root (index ++ [j]) = ms !! j.
Proof.
  induction index as [|a rest IH]; intros root p n ms j H; [discriminate|].
  destruct rest as [|b rest].
  - simpl in *. rewrite H. reflexivity.
  - change (fieldAt root (a :: b :: rest))
      with (match root !! a with
            | Some (Embedded _ _ ms') => fieldAt ms' (b :: rest)
            | _ => None
            end) in H.
    change (fieldAt root ((a :: b :: rest) ++ [j]))
      with (match root !! a with
            | Some (Embedded _ _ ms') => fieldAt ms' ((b :: rest) ++ [j])
            | _ => None
            end).
    destruct (root !! a) as [[|p' n' ms']|]; try discriminate.
    now apply (IH ms' p n ms j).
Qed.

Section Preservation.

Variable root : list field.
Variable P : walker -> Prop.
Hypothesis Hvisit : forall f index w,
  fieldAt root index = Some f -> P w -> P (visit f index w).

Lemma walk_members_preserve (ms : list field) :
  Forall (fun f => forall index w,
            fieldAt root index = Some f -> P w -> P (walkField f index w)) ms ->
  forall index i w,
    (forall k m, ms !! k = Some m -> fieldAt root (index ++ [i + k]) = Some m) ->
    P w -> P (walk ms index i w).
Proof.
  induction 1 as [|m ms Hm _ IH]; intros index i w Hloc Hw; [exact Hw|].
  simpl. apply IH.
  - intros k m' Hk. replace (S i + k) with (i + S k) by lia. now apply Hloc.
  - apply Hm; [|exact Hw].
    specialize (Hloc 0 m eq_refl). now rewrite Nat.add_0_r in Hloc.
Qed.

Lemma walkField_preserves (f : field) :
  forall index w, fieldAt root index = Some f -> P w -> P (walkField f index w).
Proof.
  induction f as [n t|p n ms IH] using field_nested_ind; intros index w Hat Hw.
  - simpl. now apply Hvisit.
  - rewrite walkField_embedded.
    apply (walk_members_preserve ms IH).
    + intros k m Hk. rewrite (fieldAt_snoc index root p n ms (0 + k) Hat).
      exact Hk.
    + now apply Hvisit.
Qed.

(** A property of the walker kept by every visit of a declared member is
    kept by the walk. *)
Lemma walk_preserves (ms : list field) (index : list nat) (i : nat) (w : walker) :
  (forall k m, ms !! k = Some m -> fieldAt root (index ++ [i + k]) = Some m) ->
  P w -> P (walk ms index i w).
Proof.
  apply walk_members_preserve.
  apply Forall_forall. intros f _. apply walkField_preserves.
Qed.

End Preservation.

Lemma visit_entriesDeclared (root : list field) (f : field)
  (index : list nat) (w : walker) :
  fieldAt root index = Some f ->
  entriesDeclared root w -> entriesDeclared root (visit f index w).
Proof.
  unfold entriesDeclared. intros Hat Hw.
  assert (Hnew : exists m, fieldAt root index = Some m
                           /\ fieldType f = fieldType m
                           /\ (fieldName f = "" \/ fieldName f = fieldName m))
    by (exists f; auto).
  assert (Hclear : forall i old, fields w !! i = Some old ->
            Forall (fun e => exists m, fieldAt root (Index e) = Some m
                                       /\ Type_ e = fieldType m
                                       /\ (Name e = "" \/ Name e = fieldName m))
                   (<[i := setName "" old]> (fields w))).
  { intros i old Hold. apply Forall_insert; [exact Hw|].
    destruct (proj1 (Forall_lookup _ _) Hw i old Hold) as (m & H1 & H2 & _).
    exists m. simpl. auto. }
  unfold visit.
  destruct (byName w !! fieldName f) as [oldIndex|];
    [destruct (fields w !! oldIndex) as [old|] eqn:Hold;
     [repeat case_decide|]|];
    simpl; try apply Forall_app; try split; try (apply Forall_singleton; exact Hnew);
    eauto.
Qed.

Lemma visit_namesIndexed (f : field) (index : list nat) (w : walker) :
  namesIndexed w -> namesIndexed (visit f index w).
Proof.
  unfold namesIndexed. intros Hw.
  (* appending the visited member under its name *)
  assert (Happend : forall (l : list StructField) (bn : gmap string nat),
            (forall i e, l !! i = Some e -> Name e <> "" ->
                         bn !! Name e = Some i /\ Name e <> fieldName f) ->
            forall i e,
              (l ++ [mkStructField (fieldName f) (fieldType f) index (isEmbedded f)]) !! i
                = Some e ->
              Name e <> "" ->
              <[fieldName f := length l]> bn !! Name e = Some i).
  { intros l bn Hl i e Hi Hne.
    destruct (decide (i < length l)) as [Hlt|Hge].
    - rewrite lookup_app_l in Hi by exact Hlt.
      destruct (Hl i e Hi Hne) as [Hb Hn].
      rewrite lookup_insert_ne by congruence. exact Hb.
    - apply lookup_lt_Some in Hi as Hlen. rewrite length_app in Hlen. simpl in Hlen.
      assert (i = length l) as -> by lia.
      rewrite lookup_app_r, Nat.sub_diag in Hi by lia.
      injection Hi as <-. simpl. apply lookup_insert_eq. }
  (* clearing the name of the old entry *)
  assert (Hcleared : forall oldIndex old i e,
            fields w !! oldIndex = Some old ->
            <[oldIndex := setName "" old]> (fields w) !! i = Some e ->
            Name e <> "" -> fields w !! i = Some e /\ i <> oldIndex).
  { intros oldIndex old i e Hold Hi Hne.
    destruct (decide (i = oldIndex)) as [->|Hneq].
    - rewrite list_lookup_insert_eq in Hi by (eapply lookup_lt_Some; eauto).
      injection Hi as <-. simpl in Hne. congruence.
    - rewrite list_lookup_insert_ne in Hi by congruence. auto. }
  unfold visit.
  destruct (byName w !! fieldName f) as [oldIndex|] eqn:Hby.
  - destruct (fields w !! oldIndex) as [old|] eqn:Hold.
    + repeat case_decide; simpl.
      * intros i e Hi Hne.
        destruct (Hcleared _ _ _ _ Hold Hi Hne) as [Hi' _]. now apply Hw.
      * apply Happend.
        intros i e Hi Hne.
        destruct (Hcleared _ _ _ _ Hold Hi Hne) as [Hi' Hneq].
        split; [now apply Hw|].
        intros Heq. specialize (Hw i e Hi' Hne). rewrite Heq, Hby in Hw. congruence.
      * exact Hw.
    + simpl. apply Happend. intros i e Hi Hne. split; [now apply Hw|].
      intros Heq. specialize (Hw i e Hi Hne). rewrite Heq, Hby in Hw.
      injection Hw as ->. congruence.
  - simpl. apply Happend. intros i e Hi Hne. split; [now apply Hw|].
    intros Heq. specialize (Hw i e Hi Hne). rewrite Heq, Hby in Hw. discriminate.
Qed.

Lemma walk_root_located (ms : list field) :
  forall k m, ms !! k = Some m -> fieldAt ms ([] ++ [0 + k]) = Some m.
Proof. intros k m Hk. exact Hk. Qed.

(** Every visible field stands for a declared member, under its name. *)
Lemma visible_declared (t : type) (ms : list field) :
  structFields t = Some ms -> Forall (declaredAs ms) (visible t).
Proof.
  intros Ht. unfold visible, VisibleFields. rewrite Ht.
  assert (H : entriesDeclared ms (walk ms [] 0 (mkWalker ∅ []))).
  { apply (walk_preserves ms (entriesDeclared ms)).
    - intros f index w. apply visit_entriesDeclared.
    - apply walk_root_located.
    - constructor. }
  unfold entriesDeclared in H. rewrite Forall_forall in H.
  apply Forall_forall. intros e He.
  apply list_elem_of_filter in He as [Hne He].
  destruct (H e He) as (m & H1 & H2 & [H3|H3]); [contradiction|].
  exists m. auto.
Qed.

Lemma NoDup_names_of_indexed (Q : StructField -> Prop)
  `{forall e, Decision (Q e)} (l : list StructField) :
  (forall i j e e', l !! i = Some e -> l !! j = Some e' ->
                    Q e -> Q e' -> Name e = Name e' -> i = j) ->
  NoDup (Name <$> filter Q l).
Proof.
  induction l as [|a l IH]; intros Hl; [constructor|].
  assert (Htail : NoDup (Name <$> filter Q l)).
  { apply IH. intros i j e e' Hi Hj Qe Qe' Hn.
    specialize (Hl (S i) (S j) e e' Hi Hj Qe Qe' Hn). lia. }
  rewrite filter_cons. case_decide as Qa; [|exact Htail].
  simpl. constructor; [|exact Htail].
  intros Hin. apply list_elem_of_fmap in Hin as (e' & Hn & He').
  apply list_elem_of_filter in He' as [Qe' He'].
  apply list_elem_of_lookup in He' as [j Hj].
  specialize (Hl 0 (S j) a e' eq_refl Hj Qa Qe' Hn). discriminate.
Qed.

(** No two visible fields share a name. *)
Lemma visible_names_NoDup (t : type) : NoDup (Name <$> visible t).
Proof.
  unfold visible, VisibleFields.
  destruct (structFields t) as [ms|]; [|constructor].
  assert (H : namesIndexed (walk ms [] 0 (mkWalker ∅ []))).
  { apply (walk_preserves ms namesIndexed).
    - intros f index w _. apply visit_namesIndexed.
    - apply walk_root_located.
    - intros i e Hi. discriminate. }
  apply NoDup_names_of_indexed.
  intros i j e e' Hi Hj Qe Qe' Hn.
  pose proof (H i e Hi Qe) as H1. pose proof (H j e' Hj Qe') as H2.
  rewrite Hn in H1. congruence.
Qed.

End WalkFacts.

(** ** Aggregated errors *)

Section ErrorsFacts.

Lemma append_assoc (a b c : string) : (a +:+ b) +:+ c = a +:+ (b +:+ c).
Proof.
  induction a as [|x a IH]; [reflexivity|].
  change (String x ((a +:+ b) +:+ c) = String x (a +:+ (b +:+ c))).
  now rewrite IH.
Qed.

Lemma length_append (a b : string) :
  String.length (a +:+ b) = String.length a + String.length b.
Proof.
  induction a as [|x a IH]; [reflexivity|].
  change (S (String.length (a +:+ b)) = S (String.length a) + String.length b).
  now rewrite IH.
Qed.

Lemma append_cancel_r (a b c : string) : a +:+ c = b +:+ c -> a = b.
Proof.
  intros H.
  assert (Hlen : String.length a = String.length b).
  { apply (f_equal String.length) in H. rewrite !length_append in H. lia. }
  revert b H Hlen. induction a as [|x a IH]; intros [|y b] H Hlen;
    try discriminate; [reflexivity|].
  change (String x (a +:+ c) = String y (b +:+ c)) in H.
  injection H as -> H. f_equal. apply IH; [exact H|]. simpl in Hlen. lia.
Qed.

Lemma requiredMessage_inj (n n' typ : string) :
  requiredMessage n typ = requiredMessage n' typ -> n = n'.
Proof.
  unfold requiredMessage. intros H.
  apply (inj (String.append "field '")) in H.
  now apply append_cancel_r in H.
Qed.

Lemma concat_snoc (sep x : string) (l : list string) :
  l <> [] ->
  String.concat sep (l ++ [x]) = String.concat sep l +:+ sep +:+ x.
Proof.
  induction l as [|a l IH]; intros Hne; [contradiction|].
  destruct l as [|b l]; [reflexivity|].
  change (String.concat sep ((a :: b :: l) ++ [x]))
    with (a +:+ sep +:+ String.concat sep ((b :: l) ++ [x])).
  rewrite IH by discriminate.
  change (String.concat sep (a :: b :: l))
    with (a +:+ sep +:+ String.concat sep (b :: l)).
  now rewrite !append_assoc.
Qed.

Lemma Is_joined (a e x : errors.error) :
  errors.Is a x = true \/ errors.Is e x = true ->
  errors.Is (errors.joinError a [e]) x = true.
Proof.
  intros H. cbn [errors.Is].
  destruct H as [-> | ->]; rewrite ?orb_true_r; reflexivity.
Qed.

(** Joining one more fresh error string to an aggregate. *)
Lemma aggregates_join (acc : option errors.error) (es : list errors.error)
  (s : string) :
  aggregates acc es ->
  aggregates (errors.Join [acc; Some (errors.errorString s)])
             (es ++ [errors.errorString s]).
Proof.
  assert (Hself : errors.Is (errors.errorString s) (errors.errorString s) = true).
  { cbn. now rewrite bool_decide_eq_true_2. }
  destruct acc as [a|].
  - change (errors.Join [Some a; Some (errors.errorString s)])
      with (Some (errors.joinError a [errors.errorString s])).
    intros (Hne & Hfl & Hmsg & HIs). unfold aggregates. repeat split.
    + intros H. now apply app_eq_nil in H as [? _].
    + cbn. now rewrite Hfl.
    + cbn [errors.Error]. rewrite fmap_app.
      change (errors.Error <$> [errors.errorString s]) with [s].
      rewrite concat_snoc, <- Hmsg; [reflexivity|].
      destruct es; [contradiction|discriminate].
    + apply Forall_app. split.
      * eapply Forall_impl; [exact HIs|]. intros x Hx. apply Is_joined. now left.
      * apply Forall_singleton. apply Is_joined. now right.
  - intros ->. cbn. repeat split; try discriminate.
    apply Forall_singleton.
    cbn. now rewrite bool_decide_eq_true_2.
Qed.

Lemma aggregates_fold (ss : list string) :
  forall (acc : option errors.error) (es : list errors.error),
    aggregates acc es ->
    aggregates
      (fold_left (fun acc e => errors.Join [acc; Some e]) (errors.errorString <$> ss) acc)
      (es ++ (errors.errorString <$> ss)).
Proof.
  induction ss as [|s ss IH]; intros acc es H.
  - simpl. now rewrite app_nil_r.
  - simpl. rewrite cons_middle, app_assoc. apply IH. now apply aggregates_join.
Qed.

(** The report of a sequence of fresh error strings aggregates them. *)
Lemma report_aggregates (ss : list string) :
  aggregates (report (errors.errorString <$> ss)) (errors.errorString <$> ss).
Proof. apply (aggregates_fold ss None []). reflexivity. Qed.

End ErrorsFacts.

(** ** The validator *)

Section StructFacts.

Variable typeString : reflect.type -> string.

Lemma kind_struct_members (t : reflect.type) :
  reflect.kindOf t = reflect.Struct -> exists ms, reflect.structFields t = Some ms.
Proof. destruct t; try discriminate; simpl; eauto. Qed.

(** On a pointer to a struct, [Struct] is its loop over the visible fields. *)
Lemma Struct_pointerTo (t : reflect.type) (v : reflect.value) :
  reflect.kindOf t = reflect.Struct ->
  Struct typeString (pointerTo t v)
  = checkFields typeString (reflect.MkValue t v (reflect.mkFlag true false false)) t (visible t) None.
Proof.
  intros Hk. destruct (kind_struct_members t Hk) as [ms Hms].
  unfold Struct, pointerTo, visible, reflect.VisibleFields. rewrite Hms.
  cbn [reflect.ValueOf reflect.Kind_ reflect.kindOf].
  rewrite bool_decide_eq_true_2 by reflexivity.
  cbn [negb mbind outcome_bind reflect.Elem reflect.Kind_
       reflect.flagStickyRO reflect.flagEmbedRO].
  rewrite Hk. rewrite bool_decide_eq_true_2 by reflexivity.
  cbn [negb mbind outcome_bind reflect.TypeOf]. rewrite Hms. reflexivity.
Qed.

Lemma failureOf_message (t : reflect.type) (l : list reflect.StructField) :
  failureOf typeString t <$> l
  = errors.errorString <$> ((fun f => requiredMessage (reflect.Name f) (typeString t)) <$> l).
Proof. rewrite <- list_fmap_compose. reflexivity. Qed.

(** What [Struct] does on a well-typed struct, in full: it returns exactly
    when every visible field is inspectable, and then it returns the report
    of the markers that are not populated. *)
Lemma Struct_returns (t : reflect.type) (v : reflect.value) :
  reflect.kindOf t = reflect.Struct -> reflect.hasType t v = true ->
  Forall (inspectable v) (visible t) ->
  Struct typeString (pointerTo t v)
  = Returns (report (failureOf typeString t <$> missing t v)).
Proof.
  intros Hk Hty Hins. destruct (kind_struct_members t Hk) as [ms Hms].
  rewrite (Struct_pointerTo t v Hk).
  rewrite (checkFields_returns typeString t v ms (visible t) Hms Hty
             (visible_declared t ms Hms) Hins None).
  reflexivity.
Qed.

Lemma Struct_returns_inv (t : reflect.type) (v : reflect.value) (r : option errors.error) :
  reflect.kindOf t = reflect.Struct -> reflect.hasType t v = true ->
  Struct typeString (pointerTo t v) = Returns r ->
  Forall (inspectable v) (visible t).
Proof.
  intros Hk Hty Hret. destruct (kind_struct_members t Hk) as [ms Hms].
  rewrite (Struct_pointerTo t v Hk) in Hret.
  exact (checkFields_returns_inv typeString t v ms (visible t) None r Hms Hty
           (visible_declared t ms Hms) Hret).
Qed.

Lemma report_missing_aggregates (t : reflect.type) (v : reflect.value) :
  aggregates (report (failureOf typeString t <$> missing t v))
             (failureOf typeString t <$> missing t v).
Proof. rewrite failureOf_message. apply report_aggregates. Qed.

Lemma visible_same_name (t : reflect.type) (f g : reflect.StructField) :
  f ∈ visible t -> g ∈ visible t -> reflect.Name f = reflect.Name g -> f = g.
Proof.
  intros Hf Hg Hn.
  apply list_elem_of_lookup in Hf as [i Hi].
  apply list_elem_of_lookup in Hg as [j Hj].
  assert (i = j) as ->.
  { apply (NoDup_lookup (reflect.Name <$> visible t) i j (reflect.Name f) (visible_names_NoDup t)).
    - rewrite list_lookup_fmap, Hi. reflexivity.
    - rewrite list_lookup_fmap, Hj, Hn. reflexivity. }
  congruence.
Qed.

End StructFacts.

Section Results.

Variable typeString : reflect.type -> string.

(** The result of [Struct] on an inspectable struct and its failures. *)
Lemma Struct_reports_missing_markers_aux (t : reflect.type) (v : reflect.value) :
  reflect.kindOf t = reflect.Struct -> reflect.hasType t v = true ->
  Forall (inspectable v) (visible t) ->
  exists r,
    Struct typeString (pointerTo t v) = Returns r
    /\ errors.failures r = failureOf typeString t <$> missing t v.
Proof.
  intros Hk Hty Hins.
  exists (report (failureOf typeString t <$> missing t v)).
  split; [now apply Struct_returns|].
  pose proof (report_missing_aggregates typeString t v) as Hagg.
  destruct (report _) as [e|]; simpl in *; [tauto | now rewrite Hagg].
Qed.

End Results.

(** * The specification, property by property *)

(** C1, as amended: for a well-typed struct all of whose visible fields
    are inspectable (exported, and stored behind no nil embedded pointer),
    [Struct] on a pointer to it returns a result that aggregates exactly one
    failure per visible marker field whose populated flag is false, in the
    order of the visible fields; the result is nil exactly when there is no
    such field; every reported field is a marker, so that a plain field never
    contributes; and the number of failures is the number of markers less the
    number of populated ones. *)
Theorem Struct_reports_missing_markers
  (typeString : reflect.type -> string) (t : reflect.type) (v : reflect.value)
  (Hkind : reflect.kindOf t = reflect.Struct)
  (Htyped : reflect.hasType t v = true)
  (Hinspectable : Forall (inspectable v) (visible t)) :
  exists r,
    Struct typeString (pointerTo t v) = Returns r
    /\ aggregates r (failureOf typeString t <$> missing t v)
    /\ errors.failures r = failureOf typeString t <$> missing t v
    /\ (r = None <-> missing t v = [])
    /\ Forall (fun f => f ∈ visible t /\ isMarker f = true /\ populatedAt v f = false)
              (missing t v)
    /\ length (errors.failures r) + length (populated t v) = length (markers t).
Proof.
  exists (report (failureOf typeString t <$> missing t v)).
  pose proof (report_missing_aggregates typeString t v) as Hagg.
  assert (Hfail : errors.failures (report (failureOf typeString t <$> missing t v))
                  = failureOf typeString t <$> missing t v).
  { destruct (report _) as [e|]; simpl in *; [tauto | now rewrite Hagg]. }
  split; [now apply Struct_returns|].
  split; [exact Hagg|]. split; [exact Hfail|]. split; [|split].
  - destruct (report _) as [e|]; simpl in Hagg.
    + destruct Hagg as [Hne _]. split; [discriminate|].
      intros Hm. rewrite Hm in Hne. contradiction.
    + split; [|reflexivity]. intros _. now apply fmap_nil_inv in Hagg.
  - apply Forall_forall. intros f Hf. unfold missing, markers in Hf.
    apply list_elem_of_filter in Hf as [Hp Hf].
    apply list_elem_of_filter in Hf as [Hm Hf]. auto.
  - rewrite Hfail, length_fmap. unfold missing, populated.
    induction (markers t) as [|f l IH]; [reflexivity|].
    rewrite !filter_cons. destruct (populatedAt v f); simpl; lia.
Qed.

(** C2, as amended: for a well-typed struct all of whose visible fields are
    inspectable, every visible marker field, a field promoted from an embedded
    member as much as one declared directly, is among the failures [Struct]
    returns if and only if its populated flag is false; its failure is the
    message of a direct field, built from its own name and the type of the
    struct handed to [Struct]. *)
Theorem Struct_validates_promoted_fields
  (typeString : reflect.type -> string) (t : reflect.type) (v : reflect.value)
  (f : reflect.StructField)
  (Hkind : reflect.kindOf t = reflect.Struct)
  (Htyped : reflect.hasType t v = true)
  (Hinspectable : Forall (inspectable v) (visible t))
  (Hvisible : f ∈ visible t)
  (Hmarker : isMarker f = true) :
  exists r,
    Struct typeString (pointerTo t v) = Returns r
    /\ (failureOf typeString t f ∈ errors.failures r <-> populatedAt v f = false)
    /\ failureOf typeString t f
       = errors.errorString (requiredMessage (reflect.Name f) (typeString t)).
Proof.
  destruct (Struct_reports_missing_markers_aux typeString t v Hkind Htyped Hinspectable)
    as (r & Hret & Hfail).
  exists r. split; [exact Hret|]. split; [|reflexivity].
  rewrite Hfail. split.
  - intros Hin. apply list_elem_of_fmap in Hin as (g & Heq & Hg).
    unfold missing, markers in Hg.
    apply list_elem_of_filter in Hg as [Hp Hg].
    apply list_elem_of_filter in Hg as [_ Hg].
    apply (f_equal errors.Error) in Heq.
    change (requiredMessage (reflect.Name f) (typeString t)
            = requiredMessage (reflect.Name g) (typeString t)) in Heq.
    apply requiredMessage_inj in Heq.
    now rewrite (visible_same_name t f g Hvisible Hg Heq).
  - intros Hp. apply list_elem_of_fmap. exists f. split; [reflexivity|].
    unfold missing, markers. apply list_elem_of_filter. split; [exact Hp|].
    apply list_elem_of_filter. split; assumption.
Qed.

(** C3: on a well-typed argument that is not a non-nil pointer to a struct
    (nil, a value that is no pointer, a nil pointer, a pointer to something
    that is no struct), [Struct] returns, without panicking, the error
    "bad type: " followed by the description of the argument's type; that
    error wraps [ErrBadType], so [errors.Is] finds it, and it is no
    aggregate of field failures. *)
Theorem Struct_bad_argument
  (typeString : reflect.type -> string) (x : reflect.iface)
  (Htyped : wellTyped x)
  (Hbad : pointsToStruct x = false) :
  exists e,
    Struct typeString x = Returns (Some e)
    /\ e = errors.wrapError ("bad type: " +:+ describe typeString x) ErrBadType
    /\ errors.Is e ErrBadType = true
    /\ errors.Error e = "bad type: " +:+ describe typeString x
    /\ errors.failures (Some e) = [e].
Proof.
  exists (fmt.Errorf_w_T ErrBadType (describe typeString x)).
  split; [|repeat split].
  unfold Struct. destruct x as [[t v]|]; [|reflexivity].
  destruct t; try reflexivity.
  simpl in Htyped, Hbad.
  destruct v; try discriminate; [reflexivity|].
  cbn [reflect.ValueOf reflect.Kind_ reflect.kindOf].
  rewrite bool_decide_eq_true_2 by reflexivity.
  cbn [negb mbind outcome_bind reflect.Elem reflect.Kind_].
  rewrite Hbad. reflexivity.
Qed.

(** C4: whenever [Struct], on a pointer to a well-typed struct, returns an
    error, some marker is not populated, the error renders as the messages
    field '<name>' in '<type>' is required of the unpopulated markers, one
    per field and in the order of the visible fields, joined by newlines; it
    unwraps to exactly these failures; and [errors.Is] finds each of them in
    it. *)
Theorem Struct_joined_error_message
  (typeString : reflect.type -> string) (t : reflect.type) (v : reflect.value)
  (e : errors.error)
  (Hkind : reflect.kindOf t = reflect.Struct)
  (Htyped : reflect.hasType t v = true)
  (Hreturns : Struct typeString (pointerTo t v) = Returns (Some e)) :
  let messages :=
    (fun f => "field '" +:+ reflect.Name f +:+ "' in '" +:+ typeString t
              +:+ "' is required") <$> missing t v in
  messages <> []
  /\ errors.Error e = String.concat newline messages
  /\ errors.failures (Some e) = errors.errorString <$> messages
  /\ Forall (fun m => errors.Is e (errors.errorString m) = true) messages.
Proof.
  intros messages.
  pose proof (Struct_returns_inv typeString t v (Some e) Hkind Htyped Hreturns) as Hins.
  rewrite (Struct_returns typeString t v Hkind Htyped Hins) in Hreturns.
  injection Hreturns as Hrep.
  pose proof (report_missing_aggregates typeString t v) as Hagg.
  rewrite Hrep, failureOf_message in Hagg.
  fold (requiredMessage) in Hagg.
  change ((fun f => requiredMessage (reflect.Name f) (typeString t)) <$> missing t v)
    with messages in Hagg.
  destruct Hagg as (Hne & Hfl & Hmsg & HIs). clearbody messages.
  split; [|split; [|split]].
  - intros Hnil. rewrite Hnil in Hne. contradiction.
  - rewrite Hmsg, <- list_fmap_compose.
    f_equal. clear. induction messages as [|m l IH]; [reflexivity|].
    simpl. f_equal. exact IH.
  - exact Hfl.
  - now apply Forall_fmap in HIs.
Qed.

(** C8: [Parse] decodes first.  When the decoder returns an error, [Parse]
    returns that error and [Struct] is not among the calls it made; when the
    decoder succeeds, [Parse] calls [Struct] once, on the destination as
    decoded, and returns what [Struct] returns (or panics as it does). *)
Theorem Parse_short_circuits
  (typeString : reflect.type -> string) (Reader : Type)
  (Decode : Reader -> reflect.iface -> reflect.iface * option errors.error)
  (r : Reader) (obj decoded : reflect.iface) (err : option errors.error)
  (Hdecode : Decode r obj = (decoded, err)) :
  match err with
  | Some e =>
      snd (Parse typeString Reader Decode r obj) = Returns (Some e)
      /\ forall o, CallStruct o ∉ fst (Parse typeString Reader Decode r obj)
  | None =>
      snd (Parse typeString Reader Decode r obj) = Struct typeString decoded
      /\ fst (Parse typeString Reader Decode r obj) = [CallDecode obj; CallStruct decoded]
  end.
Proof.
  unfold Parse. rewrite Hdecode. destruct err as [e|]; simpl.
  - split; [reflexivity|]. intros o Hin.
    apply list_elem_of_singleton in Hin. discriminate.
  - split; reflexivity.
Qed.

(** C10: [Struct] panics on every well-typed struct that has a visible
    field with an unexported name, marker or not: it never returns there.
    The panic is the one [Value.Interface] raises for a value obtained
    through an unexported field, unless the nil-embedded-pointer panic of
    [Value.FieldByIndex] comes first. *)
Theorem Struct_panics_on_unexported_field
  (typeString : reflect.type -> string) (t : reflect.type) (v : reflect.value)
  (f : reflect.StructField)
  (Hkind : reflect.kindOf t = reflect.Struct)
  (Htyped : reflect.hasType t v = true)
  (Hvisible : f ∈ visible t)
  (Hunexported : reflect.IsExported (reflect.Name f) = false) :
  exists msg,
    Struct typeString (pointerTo t v) = Panics msg
    /\ (msg = panicReadOnly \/ msg = panicNilEmbedded).
Proof.
  destruct (kind_struct_members t Hkind) as [ms Hms].
  rewrite (Struct_pointerTo typeString t v Hkind).
  apply (checkFields_panics typeString t v ms (visible t) Hms Htyped
           (visible_declared t ms Hms)).
  apply Exists_exists. exists f. split; [exact Hvisible|].
  intros [Hexp _]. congruence.
Qed.

(** * The properties on the sample structures *)

(** The package's own test: with the name only, one failure, for [Age]; with
    both members, no error. *)
Example TestRequired_name_only :
  Struct samples.typeString (pointerTo samples.Person samples.nameOnly)
  = Returns (Some (errors.joinError
                     (errors.errorString "field 'Age' in 'validate.Person' is required")
                     [])).
Proof. vm_compute. reflexivity. Qed.

Example TestRequired_name_and_age :
  Struct samples.typeString (pointerTo samples.Person samples.nameAndAge) = Returns None.
Proof. vm_compute. reflexivity. Qed.

Ltac inspect_all :=
  match goal with
  | |- Forall ?P ?l =>
      let l' := eval vm_compute in l in
      change (Forall P l');
      repeat (constructor; [split; [reflexivity | eexists; reflexivity]|]);
      constructor
  end.

Ltac listed :=
  apply list_elem_of_In; vm_compute; tauto.

Lemma Struct_reports_missing_markers_witness :
  reflect.kindOf samples.Customer = reflect.Struct
  /\ reflect.hasType samples.Customer samples.customer = true
  /\ Forall (inspectable samples.customer) (visible samples.Customer)
  /\ exists r,
       Struct samples.typeString (pointerTo samples.Customer samples.customer) = Returns r
       /\ aggregates r (failureOf samples.typeString samples.Customer
                          <$> missing samples.Customer samples.customer)
       /\ errors.failures r
          = failureOf samples.typeString samples.Customer
              <$> missing samples.Customer samples.customer
       /\ (r = None <-> missing samples.Customer samples.customer = [])
       /\ Forall (fun f => f ∈ visible samples.Customer /\ isMarker f = true
                           /\ populatedAt samples.customer f = false)
                 (missing samples.Customer samples.customer)
       /\ length (errors.failures r)
          + length (populated samples.Customer samples.customer)
          = length (markers samples.Customer).
Proof.
  split; [reflexivity|]. split; [reflexivity|]. split; [inspect_all|].
  apply (Struct_reports_missing_markers samples.typeString
           samples.Customer samples.customer);
    [reflexivity | reflexivity | inspect_all].
Defined.

(** C1 as stated fails: a plain unexported field, or a plain field behind a
    nil embedded pointer, makes [Struct] panic instead of returning the one
    failure of the unpopulated marker. *)
Lemma Struct_plain_field_can_panic :
  (reflect.hasType samples.Invoice samples.emptyInvoice = true
   /\ length (missing samples.Invoice samples.emptyInvoice) = 1
   /\ Struct samples.typeString (pointerTo samples.Invoice samples.emptyInvoice)
      = Panics panicReadOnly)
  /\ (reflect.hasType samples.Envelope samples.bareEnvelope = true
      /\ length (missing samples.Envelope samples.bareEnvelope) = 1
      /\ Struct samples.typeString (pointerTo samples.Envelope samples.bareEnvelope)
         = Panics panicNilEmbedded)
  /\ ~ (forall t v, reflect.kindOf t = reflect.Struct -> reflect.hasType t v = true ->
          exists r, Struct samples.typeString (pointerTo t v) = Returns r
                    /\ length (errors.failures r) = length (missing t v)).
Proof.
  split; [|split].
  - repeat split; vm_compute; reflexivity.
  - repeat split; vm_compute; reflexivity.
  - intros H.
    destruct (H samples.Invoice samples.emptyInvoice eq_refl eq_refl) as (r & Hr & _).
    vm_compute in Hr. discriminate.
Qed.

Lemma Struct_validates_promoted_fields_witness :
  reflect.kindOf samples.Customer = reflect.Struct
  /\ reflect.hasType samples.Customer samples.customer = true
  /\ Forall (inspectable samples.customer) (visible samples.Customer)
  /\ samples.zipField ∈ visible samples.Customer
  /\ isMarker samples.zipField = true
  /\ exists r,
       Struct samples.typeString (pointerTo samples.Customer samples.customer) = Returns r
       /\ (failureOf samples.typeString samples.Customer samples.zipField
             ∈ errors.failures r
           <-> populatedAt samples.customer samples.zipField = false)
       /\ failureOf samples.typeString samples.Customer samples.zipField
          = errors.errorString
              (requiredMessage (reflect.Name samples.zipField)
                 (samples.typeString samples.Customer)).
Proof.
  split; [reflexivity|]. split; [reflexivity|]. split; [inspect_all|].
  split; [listed|]. split; [reflexivity|].
  apply (Struct_validates_promoted_fields samples.typeString
           samples.Customer samples.customer samples.zipField);
    [reflexivity | reflexivity | inspect_all | listed | reflexivity].
Defined.

(** C2 as stated fails: a marker promoted from an embedded member of an
    unexported type, or from an embedded pointer that is nil, is not reported
    although its flag is false or it has no storage at all: [Struct] panics. *)
Lemma Struct_promoted_field_can_panic :
  let idField := reflect.mkStructField "ID" (reflect.TRequired reflect.TInt) [0; 0] false in
  (reflect.hasType samples.Record_ samples.emptyRecord = true
   /\ idField ∈ visible samples.Record_
   /\ populatedAt samples.emptyRecord idField = false
   /\ Struct samples.typeString (pointerTo samples.Record_ samples.emptyRecord)
      = Panics panicReadOnly)
  /\ (reflect.hasType samples.Holder samples.emptyHolder = true
      /\ idField ∈ visible samples.Holder
      /\ Struct samples.typeString (pointerTo samples.Holder samples.emptyHolder)
         = Panics panicNilEmbedded).
Proof.
  intros idField. split.
  - split; [reflexivity|]. split; [listed|]. split; vm_compute; reflexivity.
  - split; [reflexivity|]. split; [listed|]. vm_compute; reflexivity.
Qed.

Lemma Struct_bad_argument_witness :
  wellTyped (Some (samples.Person, samples.nameOnly))
  /\ pointsToStruct (Some (samples.Person, samples.nameOnly)) = false
  /\ exists e,
       Struct samples.typeString (Some (samples.Person, samples.nameOnly))
         = Returns (Some e)
       /\ e = errors.wrapError
                ("bad type: "
                 +:+ describe samples.typeString (Some (samples.Person, samples.nameOnly)))
                ErrBadType
       /\ errors.Is e ErrBadType = true
       /\ errors.Error e
          = "bad type: "
            +:+ describe samples.typeString (Some (samples.Person, samples.nameOnly))
       /\ errors.failures (Some e) = [e].
Proof.
  split; [reflexivity|]. split; [reflexivity|].
  apply (Struct_bad_argument samples.typeString (Some (samples.Person, samples.nameOnly)));
    reflexivity.
Defined.

Lemma Struct_joined_error_message_witness :
  let e := errors.joinError
             (errors.joinError
                (errors.errorString "field 'Name' in 'validate.Person' is required") [])
             [errors.errorString "field 'Age' in 'validate.Person' is required"] in
  let v := reflect.VStruct [samples.absent (reflect.VString "");
                            samples.absent (reflect.VInt 0)] in
  Struct samples.typeString (pointerTo samples.Person v) = Returns (Some e)
  /\ (let messages :=
        (fun f => "field '" +:+ reflect.Name f +:+ "' in '"
                  +:+ samples.typeString samples.Person +:+ "' is required")
          <$> missing samples.Person v in
      messages <> []
      /\ errors.Error e = String.concat newline messages
      /\ errors.failures (Some e) = errors.errorString <$> messages
      /\ Forall (fun m => errors.Is e (errors.errorString m) = true) messages).
Proof.
  intros e v. split; [vm_compute; reflexivity|].
  apply (Struct_joined_error_message samples.typeString samples.Person v e);
    [reflexivity | reflexivity | vm_compute; reflexivity].
Defined.

Lemma UnmarshalJSON_accepts_payload_witness :
  let r := mkRequired (json.mkPair 0 0) false in
  json.Unmarshal samples.zeros (value r) = (json.mkPair 0 0, None)
  /\ UnmarshalJSON json.Unmarshal samples.zeros r = (mkRequired (json.mkPair 0 0) true, None)
  /\ snd (HasValue (fst (UnmarshalJSON json.Unmarshal samples.zeros r))) = true
  /\ snd (Value (fst (UnmarshalJSON json.Unmarshal samples.zeros r))) = json.mkPair 0 0.
Proof.
  intros r. split; [vm_compute; reflexivity|].
  apply (UnmarshalJSON_accepts_payload json.Unmarshal samples.zeros r (json.mkPair 0 0)).
  vm_compute. reflexivity.
Defined.

Lemma UnmarshalJSON_rejects_payload_witness :
  let r := mkRequired (json.mkPair 0 0) false in
  json.Unmarshal samples.misfit (value r)
    = (json.mkPair 1 0, Some (json.typeError "string" "B"))
  /\ UnmarshalJSON json.Unmarshal samples.misfit r
     = (mkRequired (json.mkPair 1 0) (valid r), Some (json.typeError "string" "B"))
  /\ snd (HasValue (fst (UnmarshalJSON json.Unmarshal samples.misfit r)))
     = snd (HasValue r)
  /\ snd (Value (fst (UnmarshalJSON json.Unmarshal samples.misfit r))) = json.mkPair 1 0.
Proof.
  intros r. split; [vm_compute; reflexivity|].
  apply (UnmarshalJSON_rejects_payload json.Unmarshal samples.misfit r
           (json.mkPair 1 0) (json.typeError "string" "B")).
  vm_compute. reflexivity.
Defined.

(** C6 as stated fails: on the document [{"A":1,"B":"x"}] decoding into a
    [Required[Pair]] fails, the flag stays clear, and yet the stored value
    has changed: the member that did fit was written. *)
Lemma UnmarshalJSON_failure_can_modify_value :
  let r := mkRequired (json.mkPair 0 0) false in
  let after := UnmarshalJSON json.Unmarshal samples.misfit r in
  snd after = Some (json.typeError "string" "B")
  /\ snd (HasValue (fst after)) = false
  /\ snd (Value (fst after)) = json.mkPair 1 0
  /\ snd (Value (fst after)) <> snd (Value r).
Proof.
  intros r after. repeat split; try (vm_compute; reflexivity).
  vm_compute. discriminate.
Qed.

Lemma Parse_short_circuits_witness :
  let obj := pointerTo samples.Ticket samples.emptyTicket in
  samples.decodeExhausted tt obj = (obj, Some samples.EOF)
  /\ snd (Parse samples.typeString unit samples.decodeExhausted tt obj)
     = Returns (Some samples.EOF)
  /\ forall o,
       CallStruct o ∉ fst (Parse samples.typeString unit samples.decodeExhausted tt obj).
Proof.
  intros obj. split; [reflexivity|].
  exact (Parse_short_circuits samples.typeString unit samples.decodeExhausted
           tt obj obj (Some samples.EOF) eq_refl).
Defined.

Lemma valid_is_latched_witness :
  let r := mkRequired (json.mkPair 3 4) true in
  let ops := [OpUnmarshalJSON samples.misfit; OpSetValid false; OpString;
              OpUnmarshalJSON samples.zeros; OpValue; OpPtr; OpUnsafePtr;
              OpRequiredType; OpSettableValue;
              OpStore SettableElem (json.mkPair 0 0); OpHasValue] in
  snd (HasValue r) = true
  /\ snd (HasValue (performAll json.Unmarshal samples.PairType samples.SprintPair ops r))
     = true.
Proof.
  intros r ops. split; [reflexivity|].
  apply (valid_is_latched json.Unmarshal samples.PairType samples.SprintPair ops r).
  reflexivity.
Defined.

Lemma Struct_panics_on_unexported_field_witness :
  let note := reflect.mkStructField "note" reflect.TString [1] false in
  reflect.kindOf samples.Ticket = reflect.Struct
  /\ reflect.hasType samples.Ticket samples.emptyTicket = true
  /\ note ∈ visible samples.Ticket
  /\ isMarker note = false
  /\ reflect.IsExported (reflect.Name note) = false
  /\ exists msg,
       Struct samples.typeString (pointerTo samples.Ticket samples.emptyTicket)
         = Panics msg
       /\ (msg = panicReadOnly \/ msg = panicNilEmbedded).
Proof.
  intros note. split; [reflexivity|]. split; [reflexivity|]. split; [listed|].
  split; [reflexivity|]. split; [reflexivity|].
  apply (Struct_panics_on_unexported_field samples.typeString
           samples.Ticket samples.emptyTicket note);
    [reflexivity | reflexivity | listed | reflexivity].
Defined.

(** On the ticket the panic is the one of [Value.Interface]. *)
Example Struct_ticket_panics :
  Struct samples.typeString (pointerTo samples.Ticket samples.emptyTicket)
  = Panics panicReadOnly.
Proof. vm_compute. reflexivity. Qed.

(** * Further properties of the validator *)

Section Outcomes.

Variable typeString : reflect.type -> string.

Lemma Struct_rejects_argument (x : reflect.iface) :
  wellTyped x -> pointsToStruct x = false ->
  Struct typeString x
  = Returns (Some (fmt.Errorf_w_T ErrBadType (describe typeString x))).
Proof.
  intros Htyped Hbad. unfold Struct. destruct x as [[t v]|]; [|reflexivity].
  destruct t; try reflexivity.
  simpl in Htyped, Hbad.
  destruct v; try discriminate; [reflexivity|].
  cbn [reflect.ValueOf reflect.Kind_ reflect.kindOf].
  rewrite bool_decide_eq_true_2 by reflexivity.
  cbn [negb mbind outcome_bind reflect.Elem reflect.Kind_].
  rewrite Hbad. reflexivity.
Qed.

Lemma pointsToStruct_inv (x : reflect.iface) :
  wellTyped x -> pointsToStruct x = true ->
  exists t v, x = pointerTo t v
              /\ reflect.kindOf t = reflect.Struct
              /\ reflect.hasType t v = true.
Proof.
  destruct x as [[t v]|]; [|discriminate].
  destruct t; try discriminate. destruct v; try discriminate.
  simpl. intros Hty Hk. apply bool_decide_eq_true_1 in Hk. eauto.
Qed.

Lemma Struct_panic_messages (t : reflect.type) (v : reflect.value) (msg : string) :
  reflect.kindOf t = reflect.Struct -> reflect.hasType t v = true ->
  Struct typeString (pointerTo t v) = Panics msg ->
  msg = panicReadOnly \/ msg = panicNilEmbedded.
Proof.
  intros Hk Hty Hp.
  destruct (decide (Forall (inspectable v) (visible t))) as [Hins|Hnot].
  - rewrite (Struct_returns typeString t v Hk Hty Hins) in Hp. discriminate.
  - apply not_Forall_Exists in Hnot; [|apply _].
    destruct (kind_struct_members t Hk) as [ms Hms].
    rewrite (Struct_pointerTo typeString t v Hk) in Hp.
    destruct (checkFields_panics typeString t v ms (visible t) Hms Hty
                (visible_declared t ms Hms) Hnot None) as (m & Hm & Hor).
    congruence.
Qed.

Lemma report_not_sentinel (ss : list string) (s : string) :
  forall acc,
    (forall a, acc = Some a -> errors.Is a (errors.sentinel s) = false) ->
    forall e,
      fold_left (fun acc e => errors.Join [acc; Some e]) (errors.errorString <$> ss) acc
        = Some e ->
      errors.Is e (errors.sentinel s) = false.
Proof.
  induction ss as [|s' ss IH]; intros acc Hacc e He.
  - now apply Hacc.
  - simpl in He. apply (IH _ ) in He; [exact He|].
    intros a Ha. destruct acc as [a0|].
    + change (errors.Join [Some a0; Some (errors.errorString s')])
        with (Some (errors.joinError a0 [errors.errorString s'])) in Ha.
      injection Ha as <-. cbn. rewrite (Hacc a0 eq_refl). reflexivity.
    + injection Ha as <-. reflexivity.
Qed.

End Outcomes.

(** X1: on a well-typed argument [Struct] returns exactly when the argument
    is no non-nil pointer to a struct or every visible field of the struct
    is inspectable; when it does not return, it panics with one of the two
    panics of package reflect, and with nothing else. *)
Theorem Struct_returns_iff
  (typeString : reflect.type -> string) (x : reflect.iface)
  (Htyped : wellTyped x) :
  ((exists r, Struct typeString x = Returns r)
     <-> (pointsToStruct x = false \/ inspectableArg x))
  /\ (forall msg, Struct typeString x = Panics msg ->
        msg = panicReadOnly \/ msg = panicNilEmbedded).
Proof.
  destruct (pointsToStruct x) eqn:Hp.
  - destruct (pointsToStruct_inv x Htyped Hp) as (t & v & -> & Hk & Hty).
    split; [split|].
    + intros [r Hr]. right. exact (Struct_returns_inv typeString t v r Hk Hty Hr).
    + intros [Hf|Hins]; [discriminate|]. eexists.
      exact (Struct_returns typeString t v Hk Hty Hins).
    + intros msg. apply Struct_panic_messages; assumption.
  - rewrite (Struct_rejects_argument typeString x Htyped Hp).
    split; [split; eauto|]. intros msg H. discriminate.
Qed.

(** X2: on a pointer to a well-typed struct, [Struct] returns nil exactly
    when every visible field is inspectable and every visible marker is
    populated. *)
Theorem Struct_nil_iff_all_populated
  (typeString : reflect.type -> string) (t : reflect.type) (v : reflect.value)
  (Hkind : reflect.kindOf t = reflect.Struct)
  (Htyped : reflect.hasType t v = true) :
  Struct typeString (pointerTo t v) = Returns None
  <-> Forall (inspectable v) (visible t)
      /\ Forall (fun f => populatedAt v f = true) (markers t).
Proof.
  split.
  - intros Hret.
    pose proof (Struct_returns_inv typeString t v None Hkind Htyped Hret) as Hins.
    split; [exact Hins|].
    rewrite (Struct_returns typeString t v Hkind Htyped Hins) in Hret.
    injection Hret as Hrep.
    pose proof (report_missing_aggregates typeString t v) as Hagg.
    rewrite Hrep in Hagg. simpl in Hagg. apply fmap_nil_inv in Hagg.
    apply Forall_forall. intros f Hf.
    destruct (populatedAt v f) eqn:Hp; [reflexivity|].
    exfalso. apply (filter_nil_not_elem_of _ _ f Hagg Hp Hf).
  - intros [Hins Hall].
    rewrite (Struct_returns typeString t v Hkind Htyped Hins).
    assert (Hm : missing t v = []).
    { unfold missing. induction Hall as [|f l Hf _ IH]; [reflexivity|].
      rewrite filter_cons, decide_False by congruence. exact IH. }
    rewrite Hm. reflexivity.
Qed.

(** X3: the two kinds of error [Struct] returns never mix: on a well-typed
    argument, the returned error matches [ErrBadType] under [errors.Is]
    exactly when the argument is no non-nil pointer to a struct; a report of
    missing fields never matches it. *)
Theorem Struct_error_kinds
  (typeString : reflect.type -> string) (x : reflect.iface) (e : errors.error)
  (Htyped : wellTyped x)
  (Hreturns : Struct typeString x = Returns (Some e)) :
  errors.Is e ErrBadType = true <-> pointsToStruct x = false.
Proof.
  destruct (pointsToStruct x) eqn:Hp.
  - destruct (pointsToStruct_inv x Htyped Hp) as (t & v & -> & Hk & Hty).
    pose proof (Struct_returns_inv typeString t v (Some e) Hk Hty Hreturns) as Hins.
    rewrite (Struct_returns typeString t v Hk Hty Hins) in Hreturns.
    injection Hreturns as Hrep. rewrite failureOf_message in Hrep.
    unfold report in Hrep. unfold ErrBadType.
    rewrite (report_not_sentinel _ "bad type" None (fun a H => ltac:(discriminate)) e Hrep).
    split; discriminate.
  - rewrite (Struct_rejects_argument typeString x Htyped Hp) in Hreturns.
    injection Hreturns as <-. split; reflexivity.
Qed.

(** X4: [Struct] reports a field at most once: the failures aggregated in
    its result are pairwise distinct. *)
Theorem Struct_failures_distinct
  (typeString : reflect.type -> string) (t : reflect.type) (v : reflect.value)
  (r : option errors.error)
  (Hkind : reflect.kindOf t = reflect.Struct)
  (Htyped : reflect.hasType t v = true)
  (Hreturns : Struct typeString (pointerTo t v) = Returns r) :
  NoDup (errors.failures r).
Proof.
  pose proof (Struct_returns_inv typeString t v r Hkind Htyped Hreturns) as Hins.
  destruct (Struct_reports_missing_markers_aux typeString t v Hkind Htyped Hins)
    as (r' & Hr' & Hfail).
  assert (r' = r) as -> by congruence. rewrite Hfail.
  assert (Hsub : forall f, f ∈ missing t v -> f ∈ visible t).
  { intros f Hf. unfold missing, markers in Hf.
    apply list_elem_of_filter in Hf as [_ Hf].
    now apply list_elem_of_filter in Hf as [_ Hf]. }
  apply NoDup_fmap_2_strong.
  - intros f g Hf Hg Heq. apply (f_equal errors.Error) in Heq.
    change (requiredMessage (reflect.Name f) (typeString t)
            = requiredMessage (reflect.Name g) (typeString t)) in Heq.
    apply requiredMessage_inj in Heq.
    apply (visible_same_name t f g); auto.
  - unfold missing, markers. apply NoDup_filter, NoDup_filter.
    exact (NoDup_fmap_1 reflect.Name _ (visible_names_NoDup t)).
Qed.

Section Interference.

Import reflect.

Variable typeString : type -> string.

(** The loop only looks at whether a field is stored at all and, for a
    marker, at its populated flag. *)
Lemma checkFields_ext (t : type) (v v' : value) (ms : list field)
  (fs : list StructField) :
  structFields t = Some ms -> hasType t v = true -> hasType t v' = true ->
  Forall (declaredAs ms) fs ->
  Forall (fun f =>
            (valueAt v (Index f) = None <-> valueAt v' (Index f) = None)
            /\ (isMarker f = true -> populatedAt v f = populatedAt v' f)) fs ->
  forall errs,
    checkFields typeString (MkValue t v (mkFlag true false false)) t fs errs
    = checkFields typeString (MkValue t v' (mkFlag true false false)) t fs errs.
Proof.
  intros Ht Hty Hty' Hdecl Hsame.
  induction fs as [|f fs IH]; intros errs; [reflexivity|].
  inversion Hdecl as [|? ? Hf Hdecl']; subst.
  inversion Hsame as [|? ? [Hnone Hflag] Hsame']; subst.
  rewrite (checkFields_step typeString t v ms f fs errs Ht Hty Hf).
  rewrite (checkFields_step typeString t v' ms f fs errs Ht Hty' Hf).
  destruct (valueAt v (Index f)) as [y|], (valueAt v' (Index f)) as [y'|];
    try reflexivity;
    try (destruct Hnone as [H1 H2]; (specialize (H1 eq_refl) || specialize (H2 eq_refl));
         discriminate).
  destruct (IsExported (Name f)); [|reflexivity].
  rewrite (IH Hdecl' Hsame').
  destruct (isMarker f); [|reflexivity].
  now rewrite (Hflag eq_refl).
Qed.

(** A visible field that starts at a directly declared, named member is
    that member. *)
Lemma declared_named_index (ms : list field) (f : StructField) (i : nat)
  (rest : list nat) (n : string) (ty : type) :
  declaredAs ms f -> Index f = i :: rest -> ms !! i = Some (Named n ty) ->
  rest = [] /\ Type_ f = ty.
Proof.
  intros (m & Hat & HT & _) Hidx Hi. rewrite Hidx in Hat.
  destruct rest as [|j rest]; simpl in Hat.
  - rewrite Hi in Hat. injection Hat as <-. auto.
  - rewrite Hi in Hat. discriminate.
Qed.

End Interference.

Section NamedFields.

Variable typeString : reflect.type -> string.

(** Storing another value in a directly declared, named member leaves the
    outcome of [Struct] as it was, as long as a marker keeps its flag. *)
Lemma Struct_named_field_ext (name : string) (ms : list reflect.field)
  (vs : list reflect.value) (i : nat) (n : string) (ty : reflect.type)
  (y y' : reflect.value) :
  ms !! i = Some (reflect.Named n ty) ->
  vs !! i = Some y ->
  reflect.hasType (reflect.TStruct name ms) (reflect.VStruct vs) = true ->
  reflect.hasType ty y' = true ->
  ((exists T, ty = reflect.TRequired T) -> flagOf y = flagOf y') ->
  reflect.hasType (reflect.TStruct name ms) (reflect.VStruct (<[i := y']> vs)) = true
  /\ Struct typeString (pointerTo (reflect.TStruct name ms) (reflect.VStruct (<[i := y']> vs)))
     = Struct typeString (pointerTo (reflect.TStruct name ms) (reflect.VStruct vs)).
Proof.
  intros Hi Hy Hty Hty' Hflag.
  destruct (hasType_struct name ms _ Hty) as (vs0 & [= <-] & Hvs).
  assert (Hty2 : reflect.hasType (reflect.TStruct name ms)
                   (reflect.VStruct (<[i := y']> vs)) = true).
  { simpl. apply all2_Forall2.
    rewrite <- (list_insert_id ms i _ Hi). apply Forall2_insert; [exact Hvs|exact Hty']. }
  split; [exact Hty2|].
  rewrite (Struct_pointerTo typeString (reflect.TStruct name ms)
             (reflect.VStruct (<[i := y']> vs)) eq_refl).
  rewrite (Struct_pointerTo typeString (reflect.TStruct name ms)
             (reflect.VStruct vs) eq_refl).
  apply (checkFields_ext typeString (reflect.TStruct name ms) _ _ ms
           (visible (reflect.TStruct name ms))
           eq_refl Hty2 Hty (visible_declared (reflect.TStruct name ms) ms eq_refl)).
  apply Forall_forall. intros f Hf.
  pose proof (proj1 (Forall_forall _ _) (visible_declared (reflect.TStruct name ms) ms eq_refl)
                f Hf) as Hdecl.
  destruct (reflect.Index f) as [|j rest] eqn:Hidx.
  { destruct Hdecl as (m & Hat & _). rewrite Hidx in Hat. discriminate. }
  unfold populatedAt. rewrite Hidx, !valueAt_struct.
  destruct (decide (j = i)) as [->|Hne].
  - destruct (declared_named_index ms f i rest n ty Hdecl Hidx Hi) as [-> HT].
    rewrite list_lookup_insert_eq by (eapply lookup_lt_Some; eauto).
    rewrite Hy. simpl valueAt. split; [split; discriminate|].
    unfold isMarker. rewrite HT. intros Hm. cbn [mbind option_bind].
    assert (Hreq : exists T, ty = reflect.TRequired T).
    { destruct ty; try discriminate. eauto. }
    specialize (Hflag Hreq). unfold flagOf in Hflag.
    destruct (ofValue y), (ofValue y'); simpl in Hflag; congruence.
  - rewrite list_lookup_insert_ne by congruence. split; [reflexivity|]. reflexivity.
Qed.

End NamedFields.

(** X5: [Struct] never looks at the content of a plain member: storing any
    other value of its type in a directly declared member that is no
    [Required[T]] changes neither the result nor a panic. *)
Theorem Struct_ignores_plain_member
  (typeString : reflect.type -> string)
  (name : string) (ms : list reflect.field) (vs : list reflect.value)
  (i : nat) (n : string) (ty : reflect.type) (y' : reflect.value)
  (Hmember : ms !! i = Some (reflect.Named n ty))
  (Hplain : forall T, ty <> reflect.TRequired T)
  (Htyped : reflect.hasType (reflect.TStruct name ms) (reflect.VStruct vs) = true)
  (Htyped' : reflect.hasType ty y' = true) :
  Struct typeString (pointerTo (reflect.TStruct name ms) (reflect.VStruct (<[i := y']> vs)))
  = Struct typeString (pointerTo (reflect.TStruct name ms) (reflect.VStruct vs)).
Proof.
  destruct (hasType_struct name ms _ Htyped) as (vs0 & [= <-] & Hvs).
  destruct (Forall2_lookup_l _ _ _ _ _ Hvs Hmember) as (y & Hy & _).
  apply (Struct_named_field_ext typeString name ms vs i n ty y y' Hmember Hy Htyped Htyped').
  intros [T HT]. now apply Hplain in HT.
Qed.

(** X6: [Struct] checks presence only: replacing the value a directly
    declared [Required[T]] member holds by any other value of type [T], with
    the populated flag kept, changes neither the result nor a panic. *)
Theorem Struct_checks_presence_only
  (typeString : reflect.type -> string)
  (name : string) (ms : list reflect.field) (vs : list reflect.value)
  (i : nat) (n : string) (T : reflect.type) (x x' : reflect.value) (b : bool)
  (Hmember : ms !! i = Some (reflect.Named n (reflect.TRequired T)))
  (Hstored : vs !! i = Some (toValue (mkRequired x b)))
  (Htyped : reflect.hasType (reflect.TStruct name ms) (reflect.VStruct vs) = true)
  (Htyped' : reflect.hasType T x' = true) :
  Struct typeString
    (pointerTo (reflect.TStruct name ms)
       (reflect.VStruct (<[i := toValue (mkRequired x' b)]> vs)))
  = Struct typeString (pointerTo (reflect.TStruct name ms) (reflect.VStruct vs)).
Proof.
  apply (Struct_named_field_ext typeString name ms vs i n (reflect.TRequired T)
           (toValue (mkRequired x b)) (toValue (mkRequired x' b))
           Hmember Hstored Htyped Htyped').
  reflexivity.
Qed.

(** X7: a container cannot be validated on its own: [Struct] on a pointer to
    a [Required[T]], populated or not, panics, because the two members of the
    container are unexported. *)
Theorem Struct_panics_on_container
  (typeString : reflect.type -> string) (T : reflect.type)
  (r : Required reflect.value) :
  Struct typeString (pointerTo (reflect.TRequired T) (toValue r)) = Panics panicReadOnly.
Proof. destruct r as [x b]. vm_compute. reflexivity. Qed.

(** X8: the populated flag after any sequence of public operations is set
    exactly when it was set before or one of the operations marked the
    container: a [SetValid], or an [UnmarshalJSON] whose payload the decoder
    accepted.  Reads, stores through the handed-out addresses and failed
    decodes never set it. *)
Theorem valid_iff_marked {T : Type}
  (Unmarshal : list Byte.byte -> T -> T * option errors.error)
  (typeForT : reflect.type) (Sprint : T -> string)
  (ops : list (@operation T)) (r : Required T) :
  snd (HasValue (performAll Unmarshal typeForT Sprint ops r))
  = valid r || everMarked Unmarshal typeForT Sprint ops r.
Proof.
  unfold performAll, HasValue. cbn [snd]. revert r.
  induction ops as [|op ops IH]; intros r; cbn [fold_left everMarked].
  - now rewrite orb_false_r.
  - rewrite IH, orb_assoc. f_equal.
    destruct op; simpl; try (now rewrite orb_false_r).
    + unfold UnmarshalJSON. destruct (Unmarshal b (value r)) as [x [e|]]; simpl.
      * now rewrite orb_false_r.
      * now rewrite orb_true_r.
    + unfold Required_String.
      destruct (valid r) eqn:Hv; simpl; rewrite Hv; reflexivity.
    + now rewrite orb_true_r.
Qed.

(** X9: a visible field whose address does not satisfy [RequiredIface], a
    plain member or a member declared as a pointer to a [Required[T]], is
    never among the failures [Struct] returns. *)
Theorem Struct_never_reports_non_marker
  (typeString : reflect.type -> string) (t : reflect.type) (v : reflect.value)
  (r : option errors.error) (f : reflect.StructField)
  (Hkind : reflect.kindOf t = reflect.Struct)
  (Htyped : reflect.hasType t v = true)
  (Hreturns : Struct typeString (pointerTo t v) = Returns r)
  (Hvisible : f ∈ visible t)
  (Hplain : isMarker f = false) :
  failureOf typeString t f ∉ errors.failures r.
Proof.
  pose proof (Struct_returns_inv typeString t v r Hkind Htyped Hreturns) as Hins.
  destruct (Struct_reports_missing_markers_aux typeString t v Hkind Htyped Hins)
    as (r' & Hr' & Hfail).
  assert (r' = r) as -> by congruence. rewrite Hfail.
  intros Hin. apply list_elem_of_fmap in Hin as (g & Heq & Hg).
  unfold missing, markers in Hg.
  apply list_elem_of_filter in Hg as [_ Hg].
  apply list_elem_of_filter in Hg as [Hm Hg].
  apply (f_equal errors.Error) in Heq.
  change (requiredMessage (reflect.Name f) (typeString t)
          = requiredMessage (reflect.Name g) (typeString t)) in Heq.
  apply requiredMessage_inj in Heq.
  rewrite <- (visible_same_name t f g Hvisible Hg Heq) in Hm. congruence.
Qed.

(** X10: when [Parse] returns nil and the decoder left a pointer to a
    well-typed struct, the decoder reported no error and every visible
    marker of that struct is populated. *)
Theorem Parse_nil_means_populated
  (typeString : reflect.type -> string) (Reader : Type)
  (Decode : Reader -> reflect.iface -> reflect.iface * option errors.error)
  (rd : Reader) (obj : reflect.iface) (t : reflect.type) (v : reflect.value)
  (err : option errors.error)
  (Hdecode : Decode rd obj = (pointerTo t v, err))
  (Hkind : reflect.kindOf t = reflect.Struct)
  (Htyped : reflect.hasType t v = true)
  (Hnil : snd (Parse typeString Reader Decode rd obj) = Returns None) :
  err = None /\ Forall (fun f => populatedAt v f = true) (markers t).
Proof.
  unfold Parse in Hnil. rewrite Hdecode in Hnil.
  destruct err as [e|]; simpl in Hnil; [discriminate|].
  split; [reflexivity|].
  destruct (kind_struct_members t Hkind) as [ms Hms].
  pose proof (Struct_returns_inv typeString t v None Hkind Htyped Hnil) as Hins.
  rewrite (Struct_returns typeString t v Hkind Htyped Hins) in Hnil.
  injection Hnil as Hrep.
  pose proof (report_missing_aggregates typeString t v) as Hagg.
  rewrite Hrep in Hagg. simpl in Hagg. apply fmap_nil_inv in Hagg.
  apply Forall_forall. intros f Hf.
  destruct (populatedAt v f) eqn:Hp; [reflexivity|].
  exfalso. apply (filter_nil_not_elem_of _ _ f Hagg Hp Hf).
Qed.

(** ** The further properties on the sample structures *)

Lemma Struct_returns_iff_witness :
  let x := pointerTo samples.Person samples.nameOnly in
  wellTyped x
  /\ ((exists r, Struct samples.typeString x = Returns r)
        <-> (pointsToStruct x = false \/ inspectableArg x))
  /\ (forall msg, Struct samples.typeString x = Panics msg ->
        msg = panicReadOnly \/ msg = panicNilEmbedded).
Proof.
  intros x. split; [reflexivity|].
  apply (Struct_returns_iff samples.typeString x). reflexivity.
Defined.

Lemma Struct_nil_iff_all_populated_witness :
  reflect.kindOf samples.Person = reflect.Struct
  /\ reflect.hasType samples.Person samples.nameAndAge = true
  /\ (Struct samples.typeString (pointerTo samples.Person samples.nameAndAge)
        = Returns None
      <-> Forall (inspectable samples.nameAndAge) (visible samples.Person)
          /\ Forall (fun f => populatedAt samples.nameAndAge f = true)
                    (markers samples.Person)).
Proof.
  split; [reflexivity|]. split; [reflexivity|].
  apply (Struct_nil_iff_all_populated samples.typeString
           samples.Person samples.nameAndAge); reflexivity.
Defined.

Lemma Struct_error_kinds_witness :
  let x := pointerTo samples.Person samples.nameOnly in
  let e := errors.joinError
             (errors.errorString "field 'Age' in 'validate.Person' is required") [] in
  wellTyped x
  /\ Struct samples.typeString x = Returns (Some e)
  /\ (errors.Is e ErrBadType = true <-> pointsToStruct x = false).
Proof.
  intros x e. split; [reflexivity|]. split; [vm_compute; reflexivity|].
  apply (Struct_error_kinds samples.typeString x e);
    [reflexivity | vm_compute; reflexivity].
Defined.

Lemma Struct_failures_distinct_witness :
  let v := reflect.VStruct [samples.absent (reflect.VString "");
                            samples.absent (reflect.VInt 0)] in
  let r := Some (errors.joinError
             (errors.joinError
                (errors.errorString "field 'Name' in 'validate.Person' is required") [])
             [errors.errorString "field 'Age' in 'validate.Person' is required"]) in
  reflect.kindOf samples.Person = reflect.Struct
  /\ reflect.hasType samples.Person v = true
  /\ Struct samples.typeString (pointerTo samples.Person v) = Returns r
  /\ NoDup (errors.failures r).
Proof.
  intros v r. split; [reflexivity|]. split; [reflexivity|].
  split; [vm_compute; reflexivity|].
  apply (Struct_failures_distinct samples.typeString samples.Person v r);
    [reflexivity | reflexivity | vm_compute; reflexivity].
Defined.

Lemma Struct_ignores_plain_member_witness :
  let ty := reflect.TPointer (reflect.TRequired reflect.TString) in
  let ms := [reflect.Named "Title" ty;
             reflect.Named "Body" (reflect.TRequired reflect.TString)] in
  let vs := [reflect.VNil; samples.present (reflect.VString "text")] in
  let title := reflect.VPtr (samples.absent (reflect.VString "")) in
  ms !! 0 = Some (reflect.Named "Title" ty)
  /\ (forall T, ty <> reflect.TRequired T)
  /\ reflect.hasType (reflect.TStruct "Draft" ms) (reflect.VStruct vs) = true
  /\ reflect.hasType ty title = true
  /\ Struct samples.typeString
       (pointerTo (reflect.TStruct "Draft" ms) (reflect.VStruct (<[0 := title]> vs)))
     = Struct samples.typeString
         (pointerTo (reflect.TStruct "Draft" ms) (reflect.VStruct vs)).
Proof.
  intros ty ms vs title.
  split; [reflexivity|]. split; [discriminate|]. split; [reflexivity|].
  split; [reflexivity|].
  apply (Struct_ignores_plain_member samples.typeString "Draft" ms vs 0 "Title" ty title);
    [reflexivity | discriminate | reflexivity | reflexivity].
Defined.

Lemma Struct_checks_presence_only_witness :
  let ms := [reflect.Named "Name" (reflect.TRequired reflect.TString);
             reflect.Named "Age" (reflect.TRequired reflect.TInt)] in
  let vs := [samples.present (reflect.VString "Saoirse");
             toValue (mkRequired (reflect.VInt 0) false)] in
  ms !! 1 = Some (reflect.Named "Age" (reflect.TRequired reflect.TInt))
  /\ vs !! 1 = Some (toValue (mkRequired (reflect.VInt 0) false))
  /\ reflect.hasType (reflect.TStruct "Person" ms) (reflect.VStruct vs) = true
  /\ reflect.hasType reflect.TInt (reflect.VInt 25) = true
  /\ Struct samples.typeString
       (pointerTo (reflect.TStruct "Person" ms)
          (reflect.VStruct (<[1 := toValue (mkRequired (reflect.VInt 25) false)]> vs)))
     = Struct samples.typeString
         (pointerTo (reflect.TStruct "Person" ms) (reflect.VStruct vs)).
Proof.
  intros ms vs.
  split; [reflexivity|]. split; [reflexivity|]. split; [reflexivity|].
  split; [reflexivity|].
  apply (Struct_checks_presence_only samples.typeString "Person" ms vs 1 "Age"
           reflect.TInt (reflect.VInt 0) (reflect.VInt 25) false);
    reflexivity.
Defined.

Lemma Struct_never_reports_non_marker_witness :
  reflect.kindOf samples.Draft = reflect.Struct
  /\ reflect.hasType samples.Draft samples.untitled = true
  /\ Struct samples.typeString (pointerTo samples.Draft samples.untitled) = Returns None
  /\ samples.titleField ∈ visible samples.Draft
  /\ isMarker samples.titleField = false
  /\ failureOf samples.typeString samples.Draft samples.titleField ∉ errors.failures None.
Proof.
  split; [reflexivity|]. split; [reflexivity|]. split; [vm_compute; reflexivity|].
  split; [listed|]. split; [reflexivity|].
  apply (Struct_never_reports_non_marker samples.typeString
           samples.Draft samples.untitled None samples.titleField);
    [reflexivity | reflexivity | vm_compute; reflexivity | listed | reflexivity].
Defined.

Lemma Parse_nil_means_populated_witness :
  let obj := pointerTo samples.Person samples.nameAndAge in
  samples.decodeNothing tt obj = (obj, None)
  /\ reflect.kindOf samples.Person = reflect.Struct
  /\ reflect.hasType samples.Person samples.nameAndAge = true
  /\ snd (Parse samples.typeString unit samples.decodeNothing tt obj) = Returns None
  /\ (@None errors.error) = None
  /\ Forall (fun f => populatedAt samples.nameAndAge f = true) (markers samples.Person).
Proof.
  intros obj. split; [reflexivity|]. split; [reflexivity|]. split; [reflexivity|].
  split; [vm_compute; reflexivity|].
  apply (Parse_nil_means_populated samples.typeString unit samples.decodeNothing
           tt obj samples.Person samples.nameAndAge None);
    [reflexivity | reflexivity | reflexivity | vm_compute; reflexivity].
Defined.
